(** * Active-learning loop of [debug_main.py]: a shallow embedding

    The script trains a classifier and a loss-prediction module on a
    growing labeled set and moves, after every cycle, the highest scored
    entries of a random subpool from the unlabeled to the labeled indices.

    Numbers.  Losses and scores are floating point tensors in the script;
    here they are rationals ([Q]), compared with [==].  Rounding, infinities
    and NaN produced by arithmetic are outside the model; the one NaN the
    script can produce structurally (the mean over an empty batch) is kept
    as a constructor of [number].

    Effects.  Python exceptions are the [Raise] results of a state and
    error monad whose state survives a failure, as the interpreter's heap
    does. *)

From Stdlib Require Import String.
From Stdlib Require Import List ZArith QArith Bool Arith Lia.
From Stdlib Require Import Permutation Sorted.
From Stdlib Require Import Lqa.
Import ListNotations.

(** ** Exceptions and results *)

Inductive exn : Type :=
| AssertionError (msg : string)
| UnboundLocalError (var : string)
| NotImplementedError
| RuntimeError (msg : string)
| IndexError
| AttributeError
| TypeError
| SystemExit
| PoolExhaustedError
| ValueError
| KeyError
| ZeroDivisionError
| SinkError (msg : string).

Inductive result (A : Type) : Type :=
| Ok (a : A)
| Raise (e : exn).

Arguments Ok {A} a.
Arguments Raise {A} e.

Definition rbind {A B} (r : result A) (k : A -> result B) : result B :=
  match r with
  | Ok a => k a
  | Raise e => Raise e
  end.

(** ** One-dimensional tensors *)

Module Tensor.

Local Open Scope Q_scope.

(** [torch.sign] *)
Definition sign (x : Q) : Q := inject_Z (Z.sgn (Qnum x)).

(** [torch.clamp(x, min=lo)] *)
Definition clamp_min (lo x : Q) : Q := if Qle_bool lo x then x else lo.

(** [x.flip(0)] *)
Definition flip (x : list Q) : list Q := rev x.

(** elementwise operation on two tensors of one shape *)
Fixpoint map2 (f : Q -> Q -> Q) (a b : list Q) : list Q :=
  match a, b with
  | x :: a', y :: b' => f x y :: map2 f a' b'
  | _, _ => []
  end.

(** elementwise operation with torch's broadcasting in one dimension:
    equal sizes, or one operand of size 1 that is stretched; any other
    pair of sizes is a RuntimeError *)
Definition bcast (f : Q -> Q -> Q) (a b : list Q) : result (list Q) :=
  if (length a =? length b)%nat then Ok (map2 f a b)
  else match a, b with
       | [x], _ => Ok (map (f x) b)
       | _, [y] => Ok (map (fun x => f x y) a)
       | _, _ => Raise (RuntimeError "The size of tensor a must match the size of tensor b")
       end.

(** [torch.sum] *)
Definition sum (x : list Q) : Q := fold_right Qplus 0 x.

(** [x[:k]] for [0 <= k] *)
Definition take (k : nat) (x : list Q) : list Q := firstn k x.

End Tensor.

(** a Python float or the value of a zero-dimensional tensor; [NaN] is
    what dividing the empty sum by the size 0 gives *)
Inductive number : Type :=
| Fin (q : Q)
| NaN.

Inductive tensor : Type :=
| Scalar (x : number)
| Vector (v : list Q).

(** ** Loss Prediction Loss (lines 59-77) *)

Section LossPred.

Local Open Scope Q_scope.
Import Tensor.

(** [(x - x.flip(0))[:len(x)//2]] *)
Definition half_diff (x : list Q) : list Q :=
  take (length x / 2) (map2 Qminus x (flip x)).

(** [2 * torch.sign(torch.clamp(t, min=0)) - 1] on one entry *)
Definition one_of (t : Q) : Q := 2 * sign (clamp_min 0 t) - 1.

(** the tensor [one] of line 67, from the raw [target] *)
Definition ones (target : list Q) : list Q := map one_of (half_diff target).

(** [torch.clamp(margin - one * input, min=0)], [input] already halved *)
Definition hinge (margin : Q) (one input : list Q) : result (list Q) :=
  rbind (bcast Qmult one input)
        (fun p => Ok (map (fun x => clamp_min 0 (margin - x)) p)).

(** [loss / input.size(0)] *)
Definition div_size (loss : Q) (n : nat) : number :=
  match n with
  | O => NaN
  | S _ => Fin (loss / inject_Z (Z.of_nat n))
  end.

Definition LossPredLoss (input target : list Q) (margin : Q)
           (reduction : string) : result tensor :=
  if negb (length input mod 2 =? 0)%nat
  then Raise (AssertionError "the batch size is not even.")
  else
    let input' := half_diff input in
    let one := ones target in
    if String.eqb reduction "mean" then
      rbind (hinge margin one input')
            (fun h => Ok (Scalar (div_size (sum h) (length input'))))
    else if String.eqb reduction "none" then
      rbind (hinge margin one input') (fun h => Ok (Vector h))
    else
      (* [NotImplementedError()] is built and dropped; [return loss]
         then reads a local that was never bound *)
      Raise (UnboundLocalError "loss").

End LossPred.

(** ** Python and numpy list operations used by the selection *)

Module Py.

Section Slices.
Context {A : Type}.

(** [x[-k:]] for [0 <= k]: [-0] is [0], so [k = 0] keeps the whole
    list; otherwise the last [min k (len x)] entries *)
Definition last_k (k : nat) (x : list A) : list A :=
  match k with
  | O => x
  | S _ => skipn (length x - k) x
  end.

(** [x[:-k]] for [0 <= k]: empty for [k = 0]; otherwise everything but
    the last [k] entries *)
Definition drop_last_k (k : nat) (x : list A) : list A :=
  match k with
  | O => []
  | S _ => firstn (length x - k) x
  end.

(** [x[arg]] for an integer index array [arg]: IndexError when an
    index is out of range *)
Fixpoint index (x : list A) (arg : list nat) : result (list A) :=
  match arg with
  | [] => Ok []
  | i :: arg' =>
      match nth_error x i with
      | None => Raise IndexError
      | Some a => rbind (index x arg') (fun r => Ok (a :: r))
      end
  end.
End Slices.

(** [np.argsort]: the positions of [u] in ascending order of their
    values.  numpy's default sort does not promise an order among equal
    values; this model keeps equal values in their original order.  The
    theorems below use only that the result is a permutation of the
    positions and ascending. *)
Definition key (u : list Q) (i : nat) : Q := nth i u 0%Q.

Fixpoint insert (u : list Q) (i : nat) (l : list nat) : list nat :=
  match l with
  | [] => [i]
  | j :: l' => if Qle_bool (key u i) (key u j) then i :: l
               else j :: insert u i l'
  end.

Definition argsort (u : list Q) : list nat :=
  fold_right (insert u) [] (seq 0 (length u)).

End Py.

(** ** Selection (lines 318, 328 and 332)

    [arg = np.argsort(uncertainty)]; the entries of
    [torch.tensor(subset)[arg]] are split into [[-ADDENDUM:]], which joins
    the labeled set, and [[:-ADDENDUM]], which stays unlabeled. *)

Definition select (ADDENDUM : nat) (uncertainty : list Q) (subset : list nat)
  : result (list nat * list nat) :=
  rbind (Py.index subset (Py.argsort uncertainty))
        (fun sorted => Ok (Py.last_k ADDENDUM sorted, Py.drop_last_k ADDENDUM sorted)).

(** ** Values that reach the plot, configuration, collaborators *)

Inductive pyval : Type :=
| PyNum (x : number)
| PyTensor (t : tensor).

(** [v.item()]: a Python number has no such attribute *)
Definition item (v : pyval) : result pyval :=
  match v with
  | PyNum _ => Raise AttributeError
  | PyTensor (Scalar x) => Ok (PyNum x)
  | PyTensor (Vector [q]) => Ok (PyNum (Fin q))
  | PyTensor (Vector _) =>
      Raise (RuntimeError "a Tensor with several elements cannot be converted to Scalar")
  end.

(** [try: v = v.item()] / [except: pass] of lines 172-179 *)
Definition try_item (v : pyval) : pyval :=
  match item v with
  | Ok v' => v'
  | Raise _ => v
  end.

(** The names [debug_config.py] and the command line ([args]) bind; neither
    file is among the sources, so the values are parameters.  The counts
    are natural numbers. *)
Record config : Type := {
  NUM_TRAIN : nat;
  INITIALQUERY : nat;
  ADDENDUM : nat;
  SUBSET : nat;
  BATCH : nat;
  TRIALS : nat;
  CYCLES : nat;
  EPOCH : nat;
  EPOCHL : nat;
  MILESTONES : list nat;
  MARGIN : Q;
  WEIGHT : Q;
  WEIGHT2 : Q;
  WEIGHT_MSE : Q;
  aux1 : string;
  aux2 : string;
  aux3 : string;
  gc : bool;
  middle_pick : bool;
  picked_plot : bool
}.

(** The collaborators the script calls: networks, optimizers, schedulers,
    library losses, random sources, the visdom client and the plot
    helper.  [Net] is the dictionary triple [models], [optimizers],
    [schedulers] of one cycle; [Rng] is the joint state of [random],
    [torch] and [numpy.random]. *)
Record world : Type := {
  Net : Type;
  Rng : Type;
  (* random.seed(trial), torch.manual_seed(trial), np.random.seed(trial) *)
  seed : nat -> Rng;
  (* random.shuffle, and the permutation a SubsetRandomSampler draws *)
  shuffle : Rng -> list nat -> list nat * Rng;
  (* lines 286-301: ResNet18, LossNet, two SGD optimizers, two schedulers *)
  fresh : Rng -> Net * Rng;
  (* criterion(scores, labels) of one example of a batch, in train mode *)
  target_loss_of : Net -> list nat -> nat -> Q;
  (* the loss module's prediction for one example of a batch *)
  pred_loss_of : Net -> list nat -> nat -> Q;
  (* nn.MSELoss, nn.L1Loss, nn.SmoothL1Loss on (pred_loss, target_loss) *)
  nn_loss : string -> list Q -> list Q -> Q;
  (* the pytorch_metric_learning losses, by name, on a batch *)
  metric_loss : string -> Net -> list nat -> Q;
  (* LogRatioLoss()(representations, LossToDist()(pred_loss)) *)
  logratio_loss : Net -> list nat -> list Q -> Q;
  (* loss.backward(), the optional clipping and both optimizer steps, from
     the loss, whether the features were detached, and args.gc *)
  optim_step : Net -> list nat -> number -> bool -> bool -> Net;
  (* both schedulers' step *)
  sched_step : Net -> Net;
  (* the batches of the test loader, and whether the prediction for a
     test example equals its label *)
  test_batches : list (list nat);
  hit : Net -> nat -> bool;
  (* predicted score and true loss of one unlabeled example, in eval mode *)
  uncertainty_of : Net -> nat -> Q;
  real_loss_of : Net -> nat -> Q;
  (* vis.line(X=..., Y=..., ...) *)
  vis_line : list nat -> list (list pyval) -> result unit;
  (* plot.plotting.dot_plot *)
  dot_plot : list Q -> list Q -> result unit
}.

(** What a run prints, with the optimizer steps and plot emissions as
    further marks; [Print_train] also records the start and end epoch and
    the indices the train loader draws from at that moment. *)
Inductive event : Type :=
| Print_train (start_num_epoch num_epochs : nat) (labeled : list nat)
| Optim_step (epoch : nat) (batch : list nat)
| Vis_line (it : nat)
| Print_finished
| Sampled (subset : list nat)
| Print_acc (trial cycle size : nat) (acc : Q)
| Acquired (labeled unlabeled : list nat)
| Saved (trial : nat).

(** ** The interpreter state and its monad *)

Section Machine.

Variable w : world.

Record state : Type := {
  iters : nat;
  plot_X : list nat;
  plot_Y : list (list pyval);
  rng : Rng w;
  labeled_set : list nat;
  unlabeled_set : list nat;
  models : option (Net w);
  log : list event
}.

Definition M (A : Type) : Type := state -> result A * state.

Definition ret {A} (a : A) : M A := fun s => (Ok a, s).

Definition raise {A} (e : exn) : M A := fun s => (Raise e, s).

Definition bind {A B} (m : M A) (k : A -> M B) : M B :=
  fun s => match m s with
           | (Ok a, s') => k a s'
           | (Raise e, s') => (Raise e, s')
           end.

Definition lift {A} (r : result A) : M A := fun s => (r, s).

Definition get : M state := fun s => (Ok s, s).

Definition modify (f : state -> state) : M unit := fun s => (Ok tt, f s).

Definition set_iters (n : nat) (s : state) : state :=
  {| iters := n; plot_X := plot_X s; plot_Y := plot_Y s; rng := rng s;
     labeled_set := labeled_set s; unlabeled_set := unlabeled_set s;
     models := models s; log := log s |}.

Definition set_plot (X : list nat) (Y : list (list pyval)) (s : state) : state :=
  {| iters := iters s; plot_X := X; plot_Y := Y; rng := rng s;
     labeled_set := labeled_set s; unlabeled_set := unlabeled_set s;
     models := models s; log := log s |}.

Definition set_rng (r : Rng w) (s : state) : state :=
  {| iters := iters s; plot_X := plot_X s; plot_Y := plot_Y s; rng := r;
     labeled_set := labeled_set s; unlabeled_set := unlabeled_set s;
     models := models s; log := log s |}.

Definition set_labeled (l : list nat) (s : state) : state :=
  {| iters := iters s; plot_X := plot_X s; plot_Y := plot_Y s; rng := rng s;
     labeled_set := l; unlabeled_set := unlabeled_set s;
     models := models s; log := log s |}.

Definition set_unlabeled (u : list nat) (s : state) : state :=
  {| iters := iters s; plot_X := plot_X s; plot_Y := plot_Y s; rng := rng s;
     labeled_set := labeled_set s; unlabeled_set := u;
     models := models s; log := log s |}.

Definition set_models (m : option (Net w)) (s : state) : state :=
  {| iters := iters s; plot_X := plot_X s; plot_Y := plot_Y s; rng := rng s;
     labeled_set := labeled_set s; unlabeled_set := unlabeled_set s;
     models := m; log := log s |}.

Definition emit (e : event) (s : state) : state :=
  {| iters := iters s; plot_X := plot_X s; plot_Y := plot_Y s; rng := rng s;
     labeled_set := labeled_set s; unlabeled_set := unlabeled_set s;
     models := models s; log := log s ++ [e] |}.

(** [for x in l: f x] *)
Fixpoint for_each {A} (f : A -> M unit) (l : list A) : M unit :=
  match l with
  | [] => ret tt
  | x :: l' => bind (f x) (fun _ => for_each f l')
  end.

End Machine.

Arguments iters {w} s.
Arguments plot_X {w} s.
Arguments plot_Y {w} s.
Arguments rng {w} s.
Arguments labeled_set {w} s.
Arguments unlabeled_set {w} s.
Arguments models {w} s.
Arguments log {w} s.
Arguments set_iters {w} n s.
Arguments set_plot {w} X Y s.
Arguments set_rng {w} r s.
Arguments set_labeled {w} l s.
Arguments set_unlabeled {w} u s.
Arguments set_models {w} m s.
Arguments emit {w} e s.
Arguments ret {w A} a.
Arguments raise {w A} e.
Arguments lift {w A} r.
Arguments get {w}.
Arguments modify {w} f.
Arguments bind {w A B} m k.
Arguments for_each {w A} f l.

Declare Scope monad_scope.
Delimit Scope monad_scope with monad.
Notation "x <- m ;; k" := (bind m (fun x => k))
  (at level 61, m at next level, right associativity) : monad_scope.
Notation "m ;;; k" := (bind m (fun _ => k))
  (at level 61, right associativity) : monad_scope.

(** ** Training (lines 82-246) *)

Section Program.

Variable cfg : config.
Variable w : world.

Local Open Scope string_scope.
Local Open Scope list_scope.
Local Open Scope monad_scope.

Definition visdom : Type := list nat -> list (list pyval) -> result unit.

(** arithmetic of zero-dimensional tensors *)
Definition nadd (a b : number) : number :=
  match a, b with
  | Fin x, Fin y => Fin (x + y)
  | _, _ => NaN
  end.

Definition nscale (c : Q) (a : number) : number :=
  match a with
  | Fin x => Fin (c * x)
  | NaN => NaN
  end.

(** the value of a loss term inside the sum of line 161; the terms are
    numbers or zero-dimensional tensors there *)
Definition to_number (v : pyval) : number :=
  match v with
  | PyNum x => x
  | PyTensor (Scalar x) => x
  | PyTensor (Vector _) => NaN
  end.

Record losses : Type := {
  m_backbone_loss : number;
  m_module_loss : pyval;
  m_module_tloss : pyval;
  loss : number
}.

Definition scalar (q : Q) : pyval := PyTensor (Scalar (Fin q)).

(** lines 112-128; [None] when no branch binds [m_module_loss] *)
Definition module_loss (net : Net w) (batch : list nat)
           (pred_loss target_loss : list Q) : result (option pyval) :=
  if aux1 cfg =? "None" then Ok (Some (PyNum (Fin 0)))
  else if aux1 cfg =? "MarginRankingLoss" then
    rbind (LossPredLoss pred_loss target_loss (MARGIN cfg) "mean")
          (fun t => Ok (Some (PyTensor t)))
  else if (aux1 cfg =? "MSE") || (aux1 cfg =? "L1") || (aux1 cfg =? "SmoothL1") then
    Ok (Some (scalar (WEIGHT_MSE cfg * nn_loss w (aux1 cfg) pred_loss target_loss)))
  else if aux1 cfg =? "Triplet" then
    Ok (Some (scalar (metric_loss w "Triplet" net batch)))
  else Ok None.

Definition metric_kinds : list string :=
  ["TripletMarginLoss"; "NPairsLoss"; "NCALoss";
   "GeneralizedLiftedStructureLoss"; "NTXentLoss"; "ContrastiveLoss"].

(** lines 131-147: [loss_fuc] is bound for the six known kinds only *)
Definition module_tloss (net : Net w) (batch : list nat) : result pyval :=
  if aux2 cfg =? "None" then Ok (PyNum (Fin 0))
  else if existsb (String.eqb (aux2 cfg)) metric_kinds then
    Ok (scalar (metric_loss w (aux2 cfg) net batch))
  else Raise (UnboundLocalError "loss_fuc").

(** lines 150-158 *)
Definition module_lloss (net : Net w) (batch : list nat) (pred_loss : list Q) : pyval :=
  if aux3 cfg =? "LogRatioLoss" then scalar (logratio_loss w net batch pred_loss)
  else PyNum (Fin 0).

(** lines 97-161: the forward pass and the loss terms of one batch *)
Definition forward_losses (net : Net w) (batch : list nat) : result losses :=
  let target_loss := map (target_loss_of w net batch) batch in
  let pred_loss := map (pred_loss_of w net batch) batch in
  let backbone := div_size (Tensor.sum target_loss) (length target_loss) in
  rbind (module_loss net batch pred_loss target_loss) (fun ml =>
  rbind (module_tloss net batch) (fun tl =>
  let ll := module_lloss net batch pred_loss in
  match ml with
  | None => Raise (UnboundLocalError "m_module_loss")
  | Some ml =>
      Ok {| m_backbone_loss := backbone;
            m_module_loss := ml;
            m_module_tloss := tl;
            loss := nadd (nadd (nadd backbone (nscale (WEIGHT cfg) (to_number ml)))
                               (nscale (WEIGHT2 cfg) (to_number tl)))
                         (nscale (1 # 10) (to_number ll)) |}
  end)).

(** [x != None] *)
Definition not_None {A} (x : option A) : bool :=
  match x with
  | Some _ => true
  | None => false
  end.

(** lines 169-198.  [plot_data] tells whether the caller passed the plot
    dictionary, whose lists the state holds.  Only the two [.item()]
    conversions sit inside [try]; the call of [vis.line] does not. *)
Definition visualize (vis : option visdom) (plot_data : bool) (L : losses) : M w unit :=
  s <- get ;;
  if (iters s mod 10 =? 0)%nat && not_None vis && plot_data then
    let X := plot_X s ++ [iters s] in
    let Y := plot_Y s ++ [[PyNum (m_backbone_loss L);
                           try_item (m_module_loss L);
                           try_item (m_module_tloss L);
                           PyNum (loss L)]] in
    modify (set_plot X Y) ;;;
    match vis with
    | Some line => lift (line X Y) ;;; modify (emit (Vis_line (iters s)))
    | None => ret tt
    end
  else ret tt.

(** the body of the loop of [train_epoch] (lines 91-198) *)
Definition train_batch (epoch epoch_loss : nat) (vis : option visdom)
           (plot_data : bool) (batch : list nat) : M w unit :=
  modify (fun s => set_iters (S (iters s)) s) ;;;
  s <- get ;;
  match models s with
  | None => raise TypeError
  | Some net =>
      L <- lift (forward_losses net batch) ;;
      modify (fun s => emit (Optim_step epoch batch)
                         (set_models (Some (optim_step w net batch (loss L)
                                              (epoch_loss <? epoch)%nat (gc cfg))) s)) ;;;
      visualize vis plot_data L
  end.

(** what [DataLoader(..., batch_size=n, sampler=...)] yields from the
    indices its sampler produced: runs of [n], the last one shorter,
    never an empty one *)
Fixpoint chunks_from (fuel n : nat) (l : list nat) : list (list nat) :=
  match fuel, l with
  | S fuel', _ :: _ => firstn n l :: chunks_from fuel' n (skipn n l)
  | _, _ => []
  end.

Definition chunks (n : nat) (l : list nat) : list (list nat) :=
  chunks_from (length l) n l.

(** constructing a [DataLoader]: a batch size 0 is refused *)
Definition DataLoader : M w unit :=
  if (BATCH cfg =? 0)%nat then raise ValueError else ret tt.

(** [train_epoch] (lines 85-198).  The train loader holds the list
    object [labeled_set] through its [SubsetRandomSampler], so an epoch
    draws from the contents that list has when the epoch starts. *)
Definition train_epoch (epoch epoch_loss : nat) (vis : option visdom)
           (plot_data : bool) : M w unit :=
  s <- get ;;
  match models s with
  | None => raise TypeError
  | Some _ =>
      let (perm, r) := shuffle w (rng s) (labeled_set s) in
      modify (set_rng r) ;;;
      for_each (train_batch epoch epoch_loss vis plot_data) (chunks (BATCH cfg) perm)
  end.

(** [train] (lines 221-246); the branch under [if False and ...] is dead *)
Definition train (start_num_epoch num_epochs epoch_loss : nat)
           (vis : option visdom) (plot_data : bool) : M w unit :=
  modify (fun s => emit (Print_train start_num_epoch num_epochs (labeled_set s)) s) ;;;
  for_each (fun epoch =>
              train_epoch epoch epoch_loss vis plot_data ;;;
              modify (fun s => set_models (option_map (sched_step w) (models s)) s))
           (seq start_num_epoch (num_epochs - start_num_epoch)) ;;;
  modify (emit Print_finished).

(** [test] (lines 201-218); [dataloaders] has the keys 'train' and 'test' *)
Definition test (mode : string) : M w Q :=
  if negb ((mode =? "val") || (mode =? "test")) then raise (AssertionError "")
  else
    s <- get ;;
    match models s with
    | None => raise TypeError
    | Some net =>
        if mode =? "val" then raise KeyError
        else
          let total := list_sum (map (@length nat) (test_batches w)) in
          let correct :=
            list_sum (map (fun b => length (filter (hit w net) b)) (test_batches w)) in
          if (total =? 0)%nat then raise ZeroDivisionError
          else ret (inject_Z (Z.of_nat (100 * correct)) / inject_Z (Z.of_nat total))%Q
    end.

(** ** The pool sampler *)

(** Modelled from the spec: the function [Sampler] of
    [strategy/sampler.py], which line 307 and line 312 call, is not
    among the sources.  The specification has it draw the configured
    number of indices at random without replacement from the unlabeled
    indices, fail when there are fewer of them than that number, and return
    the predicted scores and the true losses in the order of the drawn
    indices.  The draw is the first [SUBSET] entries of a shuffled copy
    of the list; the list that was passed in is left as it is, since the
    specification gives the sampler no effect on it. *)
Definition Sampler : M w (list Q * list Q * list nat) :=
  s <- get ;;
  if (length (unlabeled_set s) <? SUBSET cfg)%nat then raise PoolExhaustedError
  else
    let (pool, r) := shuffle w (rng s) (unlabeled_set s) in
    let subset := firstn (SUBSET cfg) pool in
    modify (fun s => emit (Sampled subset) (set_rng r s)) ;;;
    match models s with
    | None => raise TypeError
    | Some net =>
        ret (map (uncertainty_of w net) subset, map (real_loss_of w net) subset, subset)
    end.

(** ** The main loop (lines 251-345) *)

(** [MILESTONES[0]] *)
Definition first_milestone : result nat :=
  match MILESTONES cfg with
  | [] => Raise IndexError
  | m :: _ => Ok m
  end.

(** lines 303-312: training, with the scoring either between the two
    training phases or after the single one *)
Definition train_and_sample : M w (list Q * list Q * list nat) :=
  if middle_pick cfg then
    m <- lift first_milestone ;;
    train 0 m (EPOCHL cfg) (Some (vis_line w)) true ;;;
    r <- Sampler ;;
    m' <- lift first_milestone ;;
    train m' (EPOCH cfg) (EPOCHL cfg) (Some (vis_line w)) true ;;;
    ret r
  else
    train 0 (EPOCH cfg) (EPOCHL cfg) (Some (vis_line w)) true ;;;
    Sampler.

(** lines 320-325 *)
Definition plot_picked (uncertainty real_loss : list Q) : M w unit :=
  if picked_plot cfg then
    let arg := Py.argsort uncertainty in
    let k := (SUBSET cfg / 10)%nat in
    su <- lift (Py.index uncertainty arg) ;;
    rl <- lift (Py.index real_loss arg) ;;
    lift (dot_plot w (Py.last_k k su) (Py.last_k k rl)) ;;;
    lift (dot_plot w (Py.drop_last_k k su) (Py.drop_last_k k rl)) ;;;
    raise SystemExit
  else ret tt.

(** lines 327-337: [labeled_set += ...] extends the list in place,
    [unlabeled_set] is rebound to a new list, and the train loader is
    built anew *)
Definition acquire (uncertainty : list Q) (subset : list nat) : M w unit :=
  sel <- lift (select (ADDENDUM cfg) uncertainty subset) ;;
  modify (fun s => set_labeled (labeled_set s ++ fst sel) s) ;;;
  DataLoader ;;;
  modify (fun s => set_unlabeled (snd sel ++ skipn (SUBSET cfg) (unlabeled_set s)) s) ;;;
  DataLoader ;;;
  modify (fun s => emit (Acquired (labeled_set s) (unlabeled_set s)) s).

(** lines 285-301: new networks, optimizers and schedulers *)
Definition with_fresh_models (s : state w) : state w :=
  let (net, r) := fresh w (rng s) in set_rng r (set_models (Some net) s).

(** the body of the loop over the cycles (lines 285-337) *)
Definition cycle (trial cyc : nat) : M w unit :=
  modify with_fresh_models ;;;
  r <- train_and_sample ;;
  acc <- test "test" ;;
  modify (fun s => emit (Print_acc (trial + 1)%nat (cyc + 1)%nat (length (labeled_set s)) acc) s) ;;;
  plot_picked (fst (fst r)) (snd (fst r)) ;;;
  acquire (fst (fst r)) (snd r).

(** lines 263-280: seeding, the initial split and the first loaders *)
Definition initial_split (trial : nat) : M w unit :=
  modify (set_rng (seed w trial)) ;;;
  s <- get ;;
  (let (indices, r) := shuffle w (rng s) (seq 0 (NUM_TRAIN cfg)) in
   modify (fun s => set_unlabeled (skipn (INITIALQUERY cfg) indices)
                      (set_labeled (firstn (INITIALQUERY cfg) indices)
                         (set_rng r s)))) ;;;
  DataLoader ;;;
  DataLoader.

(** the first [n] rounds of [for cycle in range(CYCLES)] *)
Definition cycles (trial n : nat) : M w unit :=
  for_each (cycle trial) (seq 0 n).

(** lines 339-345; before the first cycle the name [models] is the
    torchvision module, which cannot be subscripted *)
Definition save_checkpoint (trial : nat) : M w unit :=
  s <- get ;;
  match models s with
  | None => raise TypeError
  | Some _ => modify (emit (Saved trial))
  end.

Definition run_trial (trial : nat) : M w unit :=
  initial_split trial ;;;
  cycles trial (CYCLES cfg) ;;;
  save_checkpoint trial.

Definition main : M w unit :=
  for_each run_trial (seq 0 (TRIALS cfg)).

(** the heap when [main] starts: [iters = 0], empty plot lists *)
Definition boot : state w :=
  {| iters := 0; plot_X := []; plot_Y := []; rng := seed w 0;
     labeled_set := []; unlabeled_set := []; models := None; log := [] |}.

End Program.

(** ** A small concrete instance

    Twelve training indices, batches of two, two trials of two cycles of
    two epochs.  The random source reverses a list on even states and
    leaves it on odd ones; the networks are the count of optimizer steps
    taken. *)

Module Demo.

Definition reverse_on_even (r : nat) (l : list nat) : list nat * nat :=
  (if Nat.even r then rev l else l, S r).

Definition sink_ok : list nat -> list (list pyval) -> result unit :=
  fun _ _ => Ok tt.


Definition world_with (sink : list nat -> list (list pyval) -> result unit) : world :=
  {| Net := nat;
     Rng := nat;
     seed := fun trial => trial;
     shuffle := reverse_on_even;
     fresh := fun r => (O, S r);
     target_loss_of := fun _ _ i => inject_Z (Z.of_nat i);
     pred_loss_of := fun _ _ i => inject_Z (Z.of_nat (i mod 3));
     nn_loss := fun _ _ _ => 0%Q;
     metric_loss := fun _ _ _ => 0%Q;
     logratio_loss := fun _ _ _ => 0%Q;
     optim_step := fun net _ _ _ _ => S net;
     sched_step := fun net => net;
     test_batches := [[0; 1]; [2]]%nat;
     hit := fun _ i => Nat.even i;
     uncertainty_of := fun net i => inject_Z (Z.of_nat ((i * 7 + net) mod 5));
     real_loss_of := fun _ i => inject_Z (Z.of_nat i);
     vis_line := sink;
     dot_plot := fun _ _ => Ok tt |}.

Definition world0 : world := world_with sink_ok.

Definition config_with (pick : bool) (a1 : string) : config :=
  {| NUM_TRAIN := 12; INITIALQUERY := 2; ADDENDUM := 2; SUBSET := 4;
     BATCH := 2; TRIALS := 2; CYCLES := 2; EPOCH := 2; EPOCHL := 1;
     MILESTONES := [1%nat]; MARGIN := 1; WEIGHT := 1; WEIGHT2 := 0;
     WEIGHT_MSE := 1; aux1 := a1; aux2 := "None"; aux3 := "None";
     gc := false; middle_pick := pick; picked_plot := false |}.

Definition config0 : config := config_with false "MarginRankingLoss".

(** the same run in mid-pick mode *)
Definition mid : config := config_with true "MarginRankingLoss".

(** five training indices only: three stay unlabeled, fewer than the
    subpool of four *)
Definition tiny : config :=
  {| NUM_TRAIN := 5; INITIALQUERY := 2; ADDENDUM := 2; SUBSET := 4;
     BATCH := 2; TRIALS := 2; CYCLES := 2; EPOCH := 2; EPOCHL := 1;
     MILESTONES := [1%nat]; MARGIN := 1; WEIGHT := 1; WEIGHT2 := 0;
     WEIGHT_MSE := 1; aux1 := "MarginRankingLoss"; aux2 := "None";
     aux3 := "None"; gc := false; middle_pick := false; picked_plot := false |}.

(** three initial labels: with batches of two the second batch of an
    epoch has a single entry *)
Definition odd : config :=
  {| NUM_TRAIN := 12; INITIALQUERY := 3; ADDENDUM := 2; SUBSET := 4;
     BATCH := 2; TRIALS := 2; CYCLES := 2; EPOCH := 2; EPOCHL := 1;
     MILESTONES := [1%nat]; MARGIN := 1; WEIGHT := 1; WEIGHT2 := 0;
     WEIGHT_MSE := 1; aux1 := "MarginRankingLoss"; aux2 := "None";
     aux3 := "None"; gc := false; middle_pick := false; picked_plot := false |}.


(** the heap after the initial split of trial 0 *)
Definition after_split (cfg : config) : state world0 :=
  snd (initial_split cfg world0 0 (boot world0)).

(** trial 0 up to the end of its second cycle *)
Definition two_cycles : state world0 :=
  snd (bind (initial_split config0 world0 0)
            (fun _ => cycles config0 world0 0 2) (boot world0)).

(** the heap in which the first training of trial 0 starts *)
Definition ready : state world0 :=
  with_fresh_models world0 (after_split config0).



(** an addendum of zero *)
Definition nothing_added : config :=
  {| NUM_TRAIN := 12; INITIALQUERY := 2; ADDENDUM := 0; SUBSET := 4;
     BATCH := 2; TRIALS := 2; CYCLES := 2; EPOCH := 2; EPOCHL := 1;
     MILESTONES := [1%nat]; MARGIN := 1; WEIGHT := 1; WEIGHT2 := 0;
     WEIGHT_MSE := 1; aux1 := "MarginRankingLoss"; aux2 := "None";
     aux3 := "None"; gc := false; middle_pick := false; picked_plot := false |}.

(** the plots of the picked examples switched on *)
Definition plotting : config :=
  {| NUM_TRAIN := 12; INITIALQUERY := 2; ADDENDUM := 2; SUBSET := 4;
     BATCH := 2; TRIALS := 2; CYCLES := 2; EPOCH := 2; EPOCHL := 1;
     MILESTONES := [1%nat]; MARGIN := 1; WEIGHT := 1; WEIGHT2 := 0;
     WEIGHT_MSE := 1; aux1 := "MarginRankingLoss"; aux2 := "None";
     aux3 := "None"; gc := false; middle_pick := false; picked_plot := true |}.

(** mid-pick mode without a milestone *)
Definition no_milestone : config :=
  {| NUM_TRAIN := 12; INITIALQUERY := 2; ADDENDUM := 2; SUBSET := 4;
     BATCH := 2; TRIALS := 2; CYCLES := 2; EPOCH := 2; EPOCHL := 1;
     MILESTONES := []; MARGIN := 1; WEIGHT := 1; WEIGHT2 := 0;
     WEIGHT_MSE := 1; aux1 := "MarginRankingLoss"; aux2 := "None";
     aux3 := "None"; gc := false; middle_pick := true; picked_plot := false |}.

(** an initial query larger than the training set *)
Definition greedy : config :=
  {| NUM_TRAIN := 5; INITIALQUERY := 8; ADDENDUM := 2; SUBSET := 4;
     BATCH := 2; TRIALS := 2; CYCLES := 2; EPOCH := 2; EPOCHL := 1;
     MILESTONES := [1%nat]; MARGIN := 1; WEIGHT := 1; WEIGHT2 := 0;
     WEIGHT_MSE := 1; aux1 := "MarginRankingLoss"; aux2 := "None";
     aux3 := "None"; gc := false; middle_pick := false; picked_plot := false |}.


(** no auxiliary loss at all *)
Definition plain : config := config_with false "None".


End Demo.

(** ** Vocabulary of the properties *)

(** positions in ascending order of their values *)
Definition ascending (u : list Q) : list nat -> Prop :=
  StronglySorted (fun i j => (Py.key u i <= Py.key u j)%Q).

(** a relation between the state before and the state after a
    computation that holds whatever the outcome *)
Definition keeps {w : world} {A : Type} (R : state w -> state w -> Prop)
           (m : M w A) : Prop :=
  forall s, R s (snd (m s)).

(** the labeled and the unlabeled list are the same before and after *)
Definition same_sets {w : world} (s s' : state w) : Prop :=
  labeled_set s' = labeled_set s /\ unlabeled_set s' = unlabeled_set s.

Definition is_step (e : event) : Prop :=
  match e with
  | Optim_step _ _ | Vis_line _ => True
  | _ => False
  end.

(** the index lists are kept and the log grew by optimizer steps and plot
    emissions only *)
Definition only_steps {w : world} (s s' : state w) : Prop :=
  same_sets s s' /\ exists evs, log s' = log s ++ evs /\ Forall is_step evs.


(** the training that precedes the scoring (lines 305 and 310) *)
Definition train_before_scoring (cfg : config) (w : world) : M w unit :=
  if middle_pick cfg then
    bind (lift (first_milestone cfg))
         (fun m => train cfg w 0 m (EPOCHL cfg) (Some (vis_line w)) true)
  else train cfg w 0 (EPOCH cfg) (EPOCHL cfg) (Some (vis_line w)) true.

(** the failure of the assertion of line 60 *)
Definition not_even : exn := AssertionError "the batch size is not even.".


(** numbers that agree up to the equality of rationals *)
Definition number_eq (a b : number) : Prop :=
  match a, b with
  | Fin x, Fin y => (x == y)%Q
  | NaN, NaN => True
  | _, _ => False
  end.

(** the number of batches of [b] that [n] indices fill *)
Definition ceil_div (n b : nat) : nat := (n + b - 1) / b.

(** the batches of the optimizer steps of a log, in order *)
Definition step_batches (evs : list event) : list (list nat) :=
  flat_map (fun e => match e with Optim_step _ b => [b] | _ => [] end) evs.

(** two heaps that differ in the log at most *)
Definition eq_but_log {w : world} (s t : state w) : Prop :=
  iters s = iters t /\ plot_X s = plot_X t /\ plot_Y s = plot_Y t /\
  rng s = rng t /\ labeled_set s = labeled_set t /\
  unlabeled_set s = unlabeled_set t /\ models s = models t.

(** a computation whose outcome and effect do not depend on the log *)
Definition blind {w : world} {A : Type} (m : M w A) : Prop :=
  forall s t, eq_but_log s t ->
              fst (m s) = fst (m t) /\ eq_but_log (snd (m s)) (snd (m t)).

(** what may have happened to the iteration counter, the log and the plot
    lists between two heaps: the counter did not go down, the log and both
    plot lists were appended to, by as many abscissas as rows, every row
    has four values, and the new abscissas are increasing multiples of ten
    above the old counter and not above the new one *)
Definition grows {w : world} (s s' : state w) : Prop :=
  (iters s <= iters s')%nat /\
  (exists evs, log s' = log s ++ evs) /\
  exists xs ys,
    plot_X s' = plot_X s ++ xs /\
    plot_Y s' = plot_Y s ++ ys /\
    length xs = length ys /\
    Forall (fun row => length row = 4%nat) ys /\
    StronglySorted lt xs /\
    Forall (fun x => (x mod 10 = 0 /\ iters s < x <= iters s')%nat) xs.


(** what one completed cycle appends to the labeled list (line 328):
    [x[-ADDENDUM:]] of the SUBSET sorted entries, all of them when
    ADDENDUM is 0 *)
Definition increment (cfg : config) : nat :=
  match ADDENDUM cfg with
  | O => SUBSET cfg
  | S _ => Nat.min (ADDENDUM cfg) (SUBSET cfg)
  end.

(** the trials whose checkpoint a log records, in order *)
Definition saved_trials (evs : list event) : list nat :=
  flat_map (fun e => match e with Saved t => [t] | _ => [] end) evs.

(** the log grew, and by no checkpoint *)
Definition no_checkpoint {w : world} (s s' : state w) : Prop :=
  exists evs, log s' = log s ++ evs /\ saved_trials evs = [].

(** * Properties *)

(** ** The loss prediction loss *)

Section LossPredFacts.

Local Open Scope Q_scope.
Import Tensor.

Lemma map2_nth_error (f : Q -> Q -> Q) (a b : list Q) (i : nat) :
  nth_error (map2 f a b) i =
  match nth_error a i, nth_error b i with
  | Some x, Some y => Some (f x y)
  | _, _ => None
  end.
Proof.
  revert b i; induction a as [|x a IH]; intros [|y b] [|i]; simpl;
    try reflexivity; try apply IH.
  now destruct (nth_error a i).
Qed.

Lemma map2_length (f : Q -> Q -> Q) (a b : list Q) :
  length a = length b -> length (map2 f a b) = length a.
Proof.
  revert b; induction a as [|x a IH]; intros [|y b]; simpl; auto; try discriminate.
Qed.

Lemma half_diff_length (x : list Q) : length (half_diff x) = (length x / 2)%nat.
Proof.
  unfold half_diff, take, flip.
  rewrite length_firstn, map2_length by now rewrite length_rev.
  apply Nat.min_l, Nat.Div0.div_le_upper_bound; lia.
Qed.

(** entry [i] of the halved difference pairs position [i] with position
    [len - 1 - i] *)
Lemma half_diff_nth (x : list Q) (i : nat) (d : Q) :
  nth_error (half_diff x) i = Some d ->
  (i < length x / 2)%nat /\ d = nth i x 0 - nth (length x - 1 - i) x 0.
Proof.
  unfold half_diff, take, flip. rewrite nth_error_firstn.
  destruct (Nat.ltb_spec i (length x / 2)) as [Hi|]; [|discriminate].
  assert (Hlt : (i < length x)%nat).
  { pose proof (Nat.Div0.div_le_upper_bound (length x) 2 (length x)). lia. }
  rewrite map2_nth_error, nth_error_rev.
  destruct (Nat.ltb_spec i (length x)) as [_|]; [|lia].
  rewrite (nth_error_nth' x 0 Hlt).
  assert (Hlt' : (length x - S i < length x)%nat) by lia.
  rewrite (nth_error_nth' x 0 Hlt').
  intros [= <-]. split; [assumption|].
  now replace (length x - 1 - i)%nat with (length x - S i)%nat by lia.
Qed.

Lemma one_of_pos (d : Q) : 0 < d -> one_of d = 1.
Proof.
  intros Hd. unfold one_of, clamp_min.
  assert (H : Qle_bool 0 d = true) by (apply Qle_bool_iff, Qlt_le_weak, Hd).
  rewrite H. unfold sign.
  assert (Hn : (0 < Qnum d)%Z) by (unfold Qlt in Hd; simpl in Hd; lia).
  destruct (Qnum d); try lia. reflexivity.
Qed.

Lemma one_of_nonpos (d : Q) : d <= 0 -> one_of d = -1.
Proof.
  intros Hd. unfold one_of, clamp_min.
  assert (Hn : (Qnum d <= 0)%Z) by (unfold Qle in Hd; simpl in Hd; lia).
  destruct (Qle_bool 0 d) eqn:E; [|reflexivity].
  apply Qle_bool_iff in E. unfold Qle in E; simpl in E.
  unfold sign. replace (Qnum d) with 0%Z by lia. reflexivity.
Qed.

Lemma odd_length_asserts (input target : list Q) (margin : Q) (reduction : string) :
  (length input mod 2 =? 0)%nat = false ->
  LossPredLoss input target margin reduction =
  Raise (AssertionError "the batch size is not even.").
Proof. intros H. unfold LossPredLoss. now rewrite H. Qed.

Lemma hinge_same_length (margin : Q) (one input : list Q) :
  length one = length input ->
  hinge margin one input =
  Ok (map (fun x => clamp_min 0 (margin - x)) (map2 Qmult one input)).
Proof.
  intros H. unfold hinge, bcast. rewrite H, Nat.eqb_refl. reflexivity.
Qed.

Lemma ones_length (target : list Q) : length (ones target) = (length target / 2)%nat.
Proof. unfold ones. now rewrite length_map, half_diff_length. Qed.

End LossPredFacts.

Section LossPredClaims.

Local Open Scope Q_scope.
Import Tensor.

Lemma hinge_at_zero (margin : Q) : 0 <= margin -> clamp_min 0 (margin - 0) == margin.
Proof.
  intros H. unfold clamp_min.
  destruct (Qle_bool 0 (margin - 0)) eqn:E; [ring|].
  assert (H' : 0 <= margin - 0) by (ring_simplify; exact H).
  apply Qle_bool_iff in H'. congruence.
Qed.

Lemma hinge_zero_diff (margin : Q) : clamp_min 0 (margin - 0) == clamp_min 0 margin.
Proof.
  unfold clamp_min.
  destruct (Qle_bool 0 (margin - 0)) eqn:E1; destruct (Qle_bool 0 margin) eqn:E2;
    try ring.
  - apply Qle_bool_iff in E1. assert (H : 0 <= margin) by lra.
    apply Qle_bool_iff in H. congruence.
  - apply Qle_bool_iff in E2. assert (H : 0 <= margin - 0) by lra.
    apply Qle_bool_iff in H. congruence.
Qed.

Lemma clamp_min_zero (margin : Q) :
  (0 <= margin -> clamp_min 0 margin == margin) /\
  (margin < 0 -> clamp_min 0 margin == 0).
Proof.
  unfold clamp_min. split; intros H; destruct (Qle_bool 0 margin) eqn:E;
    try reflexivity.
  - apply Qle_bool_iff in H. congruence.
  - apply Qle_bool_iff in E. lra.
Qed.

(** C3.  On a batch of four the halving pairs position 0 with 3 and 1
    with 2.  With the true losses 3, 1, 5, 2 the differences are 1 and
    -4 and the signs +1 and -1, so for any predictions the per-pair terms
    are max(0, margin - (+1) * (p0 - p3)) and
    max(0, margin - (-1) * (p1 - p2)) and the mean is half their sum.
    With the predictions 2, 2, 2, 2 the differences are 0 and 0, both
    terms and the mean are max(0, margin): the margin itself when it is
    not negative, and 0 when it is. *)
Theorem ranking_loss_worked_example (margin : Q) :
  (forall x0 x1 x2 x3 : Q, half_diff [x0; x1; x2; x3] = [x0 - x3; x1 - x2]) /\
  half_diff [3; 1; 5; 2] = [1; -4] /\
  ones [3; 1; 5; 2] = [1; -1] /\
  half_diff [2; 2; 2; 2] = [0; 0] /\
  (forall p0 p1 p2 p3 : Q,
      LossPredLoss [p0; p1; p2; p3] [3; 1; 5; 2] margin "none"
      = Ok (Vector [clamp_min 0 (margin - 1 * (p0 - p3));
                    clamp_min 0 (margin - (-1) * (p1 - p2))]) /\
      exists q,
        LossPredLoss [p0; p1; p2; p3] [3; 1; 5; 2] margin "mean"
        = Ok (Scalar (Fin q)) /\
        q == (clamp_min 0 (margin - 1 * (p0 - p3))
              + clamp_min 0 (margin - (-1) * (p1 - p2))) / 2) /\
  (exists l, LossPredLoss [2; 2; 2; 2] [3; 1; 5; 2] margin "none" = Ok (Vector l)
             /\ Forall2 Qeq l [clamp_min 0 margin; clamp_min 0 margin]) /\
  (exists q, LossPredLoss [2; 2; 2; 2] [3; 1; 5; 2] margin "mean" = Ok (Scalar (Fin q))
             /\ q == clamp_min 0 margin) /\
  (0 <= margin -> clamp_min 0 margin == margin) /\
  (margin < 0 -> clamp_min 0 margin == 0).
Proof.
  pose proof (hinge_zero_diff margin) as Hz.
  split; [reflexivity|]. split; [reflexivity|]. split; [reflexivity|].
  split; [reflexivity|]. split.
  { intros p0 p1 p2 p3. split; [reflexivity|].
    eexists; split; [reflexivity|].
    change ((clamp_min 0 (margin - 1 * (p0 - p3))
             + (clamp_min 0 (margin - (-1) * (p1 - p2)) + 0)) / 2
            == (clamp_min 0 (margin - 1 * (p0 - p3))
                + clamp_min 0 (margin - (-1) * (p1 - p2))) / 2).
    field. }
  split.
  { eexists; split; [reflexivity|].
    change (map2 Qmult (ones [3; 1; 5; 2]) (half_diff [2; 2; 2; 2])) with [0; 0].
    cbn [map]. repeat constructor; exact Hz. }
  split; [|apply clamp_min_zero].
  eexists; split; [reflexivity|].
  change (map2 Qmult (ones [3; 1; 5; 2]) (half_diff [2; 2; 2; 2])) with [0; 0].
  change (inject_Z (Z.of_nat (length (half_diff [2; 2; 2; 2])))) with 2.
  cbn [map sum fold_right]. rewrite Hz. field.
Qed.

Lemma ranking_loss_worked_example_witness :
  exists q, LossPredLoss [2; 2; 2; 2] [3; 1; 5; 2] 1 "mean" = Ok (Scalar (Fin q))
            /\ q == clamp_min 0 1.
Proof.
  exact (proj1 (proj2 (proj2 (proj2 (proj2 (proj2 (proj2
           (ranking_loss_worked_example 1)))))))).
Defined.

(** C4, as the code has it.  The sign of a pair is +1 only when the
    difference of the true losses is strictly positive; a difference of
    zero or below gives -1.  That sign is the factor inside the hinge
    term of the pair. *)
Theorem sign_is_strict (target : list Q) (i : nat) (d : Q) :
  nth_error (half_diff target) i = Some d ->
  d = nth i target 0 - nth (length target - 1 - i) target 0 /\
  nth_error (ones target) i = Some (one_of d) /\
  (0 < d -> one_of d = 1) /\
  (d <= 0 -> one_of d = -1) /\
  (forall (input : list Q) (margin p : Q),
      length input = length target ->
      (length input mod 2 =? 0)%nat = true ->
      nth_error (half_diff input) i = Some p ->
      exists l, LossPredLoss input target margin "none" = Ok (Vector l) /\
                nth_error l i = Some (clamp_min 0 (margin - one_of d * p))).
Proof.
  intros Hd. split; [apply (half_diff_nth _ _ _ Hd)|].
  assert (Ho : nth_error (ones target) i = Some (one_of d))
    by (unfold ones; now rewrite nth_error_map, Hd).
  repeat split; auto using one_of_pos, one_of_nonpos.
  intros input margin p Hlen Heven Hp.
  unfold LossPredLoss. rewrite Heven. cbn [negb String.eqb Ascii.eqb Bool.eqb].
  rewrite hinge_same_length
    by (now rewrite ones_length, half_diff_length, Hlen).
  eexists; split; [reflexivity|].
  now rewrite nth_error_map, map2_nth_error, Ho, Hp.
Qed.

Lemma sign_is_strict_witness :
  nth_error (half_diff [1; 1]) 0 = Some 0 /\
  nth_error (ones [1; 1]) 0 = Some (one_of 0) /\ one_of 0 = -1.
Proof.
  split; [reflexivity|].
  pose proof (sign_is_strict [1; 1] 0%nat 0 eq_refl) as (_ & Ho & _ & Hneg & _).
  split; [exact Ho|]. apply Hneg. discriminate.
Defined.

(** C4, as the claim has it, fails: a pair whose true losses are equal
    has difference 0, which is not below 0, and gets the sign -1; with
    predictions 3 and 1 and margin 1 the pair then costs 3 where the
    sign +1 would cost 0. *)
Lemma tie_gets_minus_one :
  nth_error (half_diff [1; 1]) 0 = Some 0 /\
  0 <= 0 /\
  nth_error (ones [1; 1]) 0 = Some (-1) /\
  ~ -1 == 1 /\
  LossPredLoss [3; 1] [1; 1] 1 "none" = Ok (Vector [3]) /\
  clamp_min 0 (1 - 1 * (3 - 1)) = 0.
Proof. repeat split; try reflexivity; discriminate. Qed.

(** C10.  On an input of even length a reduction other than 'mean' and
    'none' makes the function fail on [return loss] with the unbound
    local [loss]; NotImplementedError is never raised. *)
Theorem unknown_reduction_is_unbound_local
        (input target : list Q) (margin : Q) (reduction : string) :
  (length input mod 2 = 0)%nat ->
  reduction <> "mean"%string ->
  reduction <> "none"%string ->
  LossPredLoss input target margin reduction = Raise (UnboundLocalError "loss") /\
  LossPredLoss input target margin reduction <> Raise NotImplementedError.
Proof.
  intros Heven Hmean Hnone.
  assert (E : LossPredLoss input target margin reduction = Raise (UnboundLocalError "loss")).
  { unfold LossPredLoss. rewrite Heven. cbn [Nat.eqb negb].
    apply String.eqb_neq in Hmean, Hnone. now rewrite Hmean, Hnone. }
  split; [exact E|]. rewrite E. discriminate.
Qed.

Lemma unknown_reduction_is_unbound_local_witness :
  LossPredLoss [1; 2] [3; 4] 1 "sum" = Raise (UnboundLocalError "loss") /\
  LossPredLoss [1; 2] [3; 4] 1 "sum" <> Raise NotImplementedError.
Proof.
  apply (unknown_reduction_is_unbound_local [1; 2] [3; 4] 1 "sum");
    [reflexivity | discriminate | discriminate].
Defined.

End LossPredClaims.

(** ** Sorting and slicing *)

Section SelectionFacts.

Local Open Scope nat_scope.

Lemma insert_perm (u : list Q) (i : nat) (l : list nat) :
  Permutation (Py.insert u i l) (i :: l).
Proof.
  induction l as [|j l IH]; simpl; [reflexivity|].
  destruct (Qle_bool (Py.key u i) (Py.key u j)); [reflexivity|].
  rewrite IH. apply perm_swap.
Qed.

Lemma sort_perm (u : list Q) (l : list nat) :
  Permutation (fold_right (Py.insert u) [] l) l.
Proof.
  induction l as [|i l IH]; simpl; [reflexivity|].
  rewrite insert_perm. now constructor.
Qed.

Lemma argsort_perm (u : list Q) : Permutation (Py.argsort u) (seq 0 (length u)).
Proof. apply sort_perm. Qed.


Lemma insert_ascending (u : list Q) (i : nat) (l : list nat) :
  ascending u l -> ascending u (Py.insert u i l).
Proof.
  unfold ascending. induction l as [|j l IH]; intros Hs; simpl.
  - repeat constructor.
  - apply StronglySorted_inv in Hs as [Hl Hj].
    destruct (Qle_bool (Py.key u i) (Py.key u j)) eqn:E.
    + apply Qle_bool_iff in E. constructor; [now constructor|].
      constructor; [exact E|].
      eapply Forall_impl; [|exact Hj]. intros k Hk. simpl in Hk.
      eapply Qle_trans; eassumption.
    + constructor; [now apply IH|].
      rewrite insert_perm. constructor; [|exact Hj].
      apply Qlt_le_weak, Qnot_le_lt. intros H.
      apply Qle_bool_iff in H. congruence.
Qed.

Lemma argsort_ascending (u : list Q) : ascending u (Py.argsort u).
Proof.
  unfold Py.argsort. induction (seq 0 (length u)) as [|i l IH]; simpl.
  - constructor.
  - now apply insert_ascending.
Qed.

Lemma map_nth_seq {A} (d : A) (l : list A) (s : nat) :
  map (fun i => nth (i - s) l d) (seq s (length l)) = l.
Proof.
  revert s; induction l as [|a l IH]; intros s; simpl; [reflexivity|].
  rewrite Nat.sub_diag. f_equal.
  rewrite <- (IH (S s)) at 2. apply map_ext_in.
  intros i Hi. apply in_seq in Hi.
  now replace (i - s) with (S (i - S s)) by lia.
Qed.

Lemma map_nth_seq0 {A} (d : A) (l : list A) :
  map (fun i => nth i l d) (seq 0 (length l)) = l.
Proof.
  rewrite <- (map_nth_seq d l 0) at 2. apply map_ext.
  intros i. now rewrite Nat.sub_0_r.
Qed.

Lemma index_in_range {A} (d : A) (x : list A) (arg : list nat) :
  Forall (fun i => i < length x) arg ->
  Py.index x arg = Ok (map (fun i => nth i x d) arg).
Proof.
  induction 1 as [|i arg Hi _ IH]; simpl; [reflexivity|].
  rewrite (nth_error_nth' x d Hi), IH. reflexivity.
Qed.

Lemma index_ok_length {A} (x : list A) (arg : list nat) (r : list A) :
  Py.index x arg = Ok r -> length r = length arg.
Proof.
  revert r; induction arg as [|i arg IH]; simpl; intros r.
  - now intros [= <-].
  - destruct (nth_error x i); [|discriminate].
    destruct (Py.index x arg) as [r'|]; [|discriminate].
    simpl. intros [= <-]. simpl. now rewrite (IH r').
Qed.

(** reordering a list by a permutation of its positions *)
Lemma index_by_perm {A} (d : A) (x : list A) (arg : list nat) :
  Permutation arg (seq 0 (length x)) ->
  Py.index x arg = Ok (map (fun i => nth i x d) arg) /\
  Permutation (map (fun i => nth i x d) arg) x.
Proof.
  intros Hp. split.
  - apply index_in_range. rewrite Hp. apply Forall_forall.
    intros i Hi. apply in_seq in Hi. lia.
  - rewrite (Permutation_map _ Hp). now rewrite map_nth_seq0.
Qed.

Lemma last_drop_app {A} (k : nat) (x : list A) :
  0 < k -> Py.drop_last_k k x ++ Py.last_k k x = x.
Proof.
  destruct k; [lia|]. intros _. apply firstn_skipn.
Qed.

(** the two slices always share out the list, also for [k = 0] *)
Lemma last_drop_perm {A} (k : nat) (x : list A) :
  Permutation (Py.last_k k x ++ Py.drop_last_k k x) x.
Proof.
  destruct k; simpl.
  - now rewrite app_nil_r.
  - rewrite Permutation_app_comm. now rewrite firstn_skipn.
Qed.

Lemma last_k_length {A} (k : nat) (x : list A) :
  0 < k -> length (Py.last_k k x) = Nat.min k (length x).
Proof.
  destruct k; [lia|]. intros _. simpl Py.last_k. rewrite length_skipn. lia.
Qed.

(** what [select] returns when there is one score per subpool entry *)
Lemma select_aligned (k : nat) (uncertainty : list Q) (subset : list nat) :
  length uncertainty = length subset ->
  exists sorted,
    Permutation sorted subset /\
    select k uncertainty subset = Ok (Py.last_k k sorted, Py.drop_last_k k sorted).
Proof.
  intros Hlen.
  destruct (index_by_perm 0 subset (Py.argsort uncertainty)) as [Hi Hp].
  { rewrite <- Hlen. apply argsort_perm. }
  eexists; split; [exact Hp|]. unfold select. now rewrite Hi.
Qed.

End SelectionFacts.

(** ** Reasoning about the monad *)

Section MonadFacts.

Context {w : world}.

Lemma bind_Ok {A B} (m : M w A) (k : A -> M w B) (s s' : state w) (b : B) :
  bind m k s = (Ok b, s') ->
  exists a s1, m s = (Ok a, s1) /\ k a s1 = (Ok b, s').
Proof.
  unfold bind. destruct (m s) as [[a|e] s1]; [eauto|discriminate].
Qed.

Lemma bind_Raise {A B} (m : M w A) (k : A -> M w B) (s s' : state w) (e : exn) :
  m s = (Raise e, s') -> bind m k s = (Raise e, s').
Proof. unfold bind. now intros ->. Qed.

Lemma bind_step {A B} (m : M w A) (k : A -> M w B) (s s1 : state w) (a : A) :
  m s = (Ok a, s1) -> bind m k s = k a s1.
Proof. unfold bind. now intros ->. Qed.

Lemma for_each_app {A} (f : A -> M w unit) (l1 l2 : list A) (s : state w) :
  for_each f (l1 ++ l2) s = bind (for_each f l1) (fun _ => for_each f l2) s.
Proof.
  revert s; induction l1 as [|x l1 IH]; intros s; simpl.
  - unfold bind, ret. reflexivity.
  - unfold bind in *. destruct (f x s) as [[[]|e] s1]; [apply IH|reflexivity].
Qed.

(** a relation between the state before and after that holds whatever
    the outcome *)
Section Kept.

Variable R : state w -> state w -> Prop.
Hypothesis R_refl : forall s, R s s.
Hypothesis R_trans : forall a b c, R a b -> R b c -> R a c.


Lemma keeps_ret {A} (a : A) : keeps R (ret a).
Proof. intros s. apply R_refl. Qed.

Lemma keeps_raise {A} (e : exn) : keeps R (@raise w A e).
Proof. intros s. apply R_refl. Qed.

Lemma keeps_lift {A} (r : result A) : keeps R (lift r).
Proof. intros s. apply R_refl. Qed.

Lemma keeps_get : keeps R get.
Proof. intros s. apply R_refl. Qed.

Lemma keeps_modify (f : state w -> state w) :
  (forall s, R s (f s)) -> keeps R (modify f).
Proof. intros H s. apply H. Qed.

Lemma keeps_bind {A B} (m : M w A) (k : A -> M w B) :
  keeps R m -> (forall a, keeps R (k a)) -> keeps R (bind m k).
Proof.
  intros Hm Hk s. unfold bind. specialize (Hm s).
  destruct (m s) as [[a|e] s1]; simpl in Hm; [|exact Hm].
  eapply R_trans; [exact Hm|apply Hk].
Qed.

Lemma keeps_for_each {A} (f : A -> M w unit) (l : list A) :
  (forall x, keeps R (f x)) -> keeps R (for_each f l).
Proof.
  intros Hf. induction l as [|x l IH]; simpl.
  - apply keeps_ret.
  - apply keeps_bind; auto.
Qed.

End Kept.

End MonadFacts.


Section TrainingFacts.

Variable cfg : config.
Variable w : world.

Lemma same_sets_refl (s : state w) : same_sets s s.
Proof. now split. Qed.

Lemma same_sets_trans (a b c : state w) :
  same_sets a b -> same_sets b c -> same_sets a c.
Proof. unfold same_sets. intros [] []. split; congruence. Qed.

Lemma only_steps_refl (s : state w) : only_steps s s.
Proof.
  split; [apply same_sets_refl|]. exists []. now rewrite app_nil_r.
Qed.

Lemma only_steps_trans (a b c : state w) :
  only_steps a b -> only_steps b c -> only_steps a c.
Proof.
  intros [Hs (e1 & H1 & F1)] [Hs' (e2 & H2 & F2)].
  split; [eapply same_sets_trans; eassumption|].
  exists (e1 ++ e2). split.
  - now rewrite H2, H1, app_assoc.
  - apply Forall_app; now split.
Qed.

Hint Resolve only_steps_refl only_steps_trans same_sets_refl same_sets_trans : core.

Lemma only_steps_fields (s s' : state w) :
  labeled_set s' = labeled_set s -> unlabeled_set s' = unlabeled_set s ->
  log s' = log s -> only_steps s s'.
Proof.
  intros Hl Hu Hg. split; [now split|]. exists []. now rewrite app_nil_r.
Qed.

Lemma only_steps_emit (e : event) (s s' : state w) :
  is_step e -> only_steps s s' -> only_steps s (emit e s').
Proof.
  intros He [[Hl Hu] (evs & Hg & Hf)]. split; [now split|].
  exists (evs ++ [e]). split.
  - simpl. now rewrite Hg, app_assoc.
  - apply Forall_app. split; [exact Hf|now constructor].
Qed.

Ltac touch_nothing :=
  apply keeps_modify; intros ?; apply only_steps_fields; reflexivity.


Ltac kbind := apply keeps_bind; [exact only_steps_trans | | ].

Ltac kleaf :=
  first [apply keeps_ret | apply keeps_raise | apply keeps_lift | apply keeps_get];
  exact only_steps_refl.

Lemma visualize_only_steps (vis : option visdom) (plot_data : bool) (L : losses) :
  keeps only_steps (visualize w vis plot_data L).
Proof.
  unfold visualize. kbind; [kleaf|intros s0].
  destruct ((iters s0 mod 10 =? 0)%nat && not_None vis && plot_data); [|kleaf].
  kbind; [touch_nothing|intros _].
  destruct vis as [line|]; [|kleaf].
  kbind; [kleaf|intros _].
  apply keeps_modify. intros s. apply only_steps_emit; [exact I|auto].
Qed.

Lemma train_batch_only_steps (epoch epoch_loss : nat) (vis : option visdom)
      (plot_data : bool) (batch : list nat) :
  keeps only_steps (train_batch cfg w epoch epoch_loss vis plot_data batch).
Proof.
  unfold train_batch. kbind; [touch_nothing|intros _].
  kbind; [kleaf|intros s0].
  destruct (models s0) as [net|]; [|kleaf].
  kbind; [kleaf|intros L].
  kbind; [|intros _; apply visualize_only_steps].
  apply keeps_modify. intros s.
  apply only_steps_emit; [exact I|]. apply only_steps_fields; reflexivity.
Qed.

Lemma train_epoch_only_steps (epoch epoch_loss : nat) (vis : option visdom)
      (plot_data : bool) :
  keeps only_steps (train_epoch cfg w epoch epoch_loss vis plot_data).
Proof.
  unfold train_epoch. kbind; [kleaf|intros s0].
  destruct (models s0) as [net|]; [|kleaf].
  destruct (shuffle w (rng s0) (labeled_set s0)) as [perm r].
  kbind; [touch_nothing|intros _].
  apply keeps_for_each;
    [exact only_steps_refl | exact only_steps_trans | intros; apply train_batch_only_steps].
Qed.

(** the loop over the epochs of [train] *)
Lemma epochs_only_steps (epoch_loss : nat) (vis : option visdom)
      (plot_data : bool) (epochs : list nat) :
  keeps only_steps
    (for_each (fun epoch =>
                 bind (train_epoch cfg w epoch epoch_loss vis plot_data)
                      (fun _ => modify (fun s => set_models (option_map (sched_step w) (models s)) s)))
              epochs).
Proof.
  apply keeps_for_each;
    [exact only_steps_refl | exact only_steps_trans | intros epoch].
  kbind; [apply train_epoch_only_steps|intros _; touch_nothing].
Qed.

Lemma only_steps_same_sets (s s' : state w) : only_steps s s' -> same_sets s s'.
Proof. now intros [H _]. Qed.

Lemma keeps_weaken {A} (R R' : state w -> state w -> Prop) (m : M w A) :
  (forall s s', R s s' -> R' s s') -> keeps R m -> keeps R' m.
Proof. intros HR Hm s. apply HR, Hm. Qed.

(** [train] leaves the index lists alone, whatever its outcome *)
Lemma train_same_sets (a b el : nat) (vis : option visdom) (pd : bool) :
  keeps same_sets (train cfg w a b el vis pd).
Proof.
  unfold train.
  apply keeps_bind; [exact same_sets_trans|now apply keeps_modify|intros _].
  apply keeps_bind; [exact same_sets_trans| |intros _; now apply keeps_modify].
  eapply keeps_weaken; [exact only_steps_same_sets|apply epochs_only_steps].
Qed.

Lemma get_Ok (s s' a : state w) : get s = (Ok a, s') -> a = s /\ s' = s.
Proof. unfold get. now intros [= <- <-]. Qed.

Lemma modify_Ok (f : state w -> state w) (s s' : state w) (u : unit) :
  modify f s = (Ok u, s') -> s' = f s.
Proof. unfold modify. now intros [= <-]. Qed.

Lemma lift_Ok {A} (r : result A) (s s' : state w) (a : A) :
  lift r s = (Ok a, s') -> r = Ok a /\ s' = s.
Proof. unfold lift. now intros [= -> <-]. Qed.

Lemma DataLoader_Ok (s s' : state w) (u : unit) :
  DataLoader cfg w s = (Ok u, s') -> s' = s /\ BATCH cfg <> 0%nat.
Proof.
  unfold DataLoader. destruct (Nat.eqb_spec (BATCH cfg) 0); [discriminate|].
  unfold ret. now intros [= <-].
Qed.

(** what a successful [train] prints and does *)
Lemma train_Ok (a b el : nat) (vis : option visdom) (pd : bool) (s s' : state w) :
  train cfg w a b el vis pd s = (Ok tt, s') ->
  same_sets s s' /\
  exists evs, Forall is_step evs /\
              log s' = log s ++ Print_train a b (labeled_set s) :: evs ++ [Print_finished].
Proof.
  intros H. split.
  { pose proof (train_same_sets a b el vis pd s) as Hk. now rewrite H in Hk. }
  unfold train in H.
  apply bind_Ok in H as (u1 & s1 & H1 & H).
  apply bind_Ok in H as (u2 & s2 & H2 & H3).
  apply modify_Ok in H1, H3. subst s1 s'.
  pose proof (epochs_only_steps el vis pd (seq a (b - a))
                (emit (Print_train a b (labeled_set s)) s)) as Hk.
  rewrite H2 in Hk. destruct Hk as [_ (evs & Hg & Hf)]. simpl in Hg.
  exists evs. split; [exact Hf|]. simpl. rewrite Hg.
  now rewrite <- !app_assoc.
Qed.

(** [test] only reads *)
Lemma test_reads (mode : string) (s : state w) : snd (test w mode s) = s.
Proof.
  unfold test.
  destruct (negb _); [reflexivity|].
  unfold bind, get. destruct (models s); [|reflexivity].
  destruct (String.eqb mode "val"); [reflexivity|].
  now destruct (Nat.eqb _ 0).
Qed.

(** [plot_picked] either does nothing or ends the program *)
Lemma plot_picked_Ok (u rl : list Q) (s s' : state w) (x : unit) :
  plot_picked cfg w u rl s = (Ok x, s') -> s' = s /\ picked_plot cfg = false.
Proof.
  unfold plot_picked. destruct (picked_plot cfg).
  - intros H. exfalso.
    repeat (apply bind_Ok in H as (? & ? & _ & H)). discriminate.
  - unfold ret. now intros [= <-].
Qed.

End TrainingFacts.

(** ** The controller *)

Section ControllerFacts.

Variable cfg : config.
Variable w : world.

(** [random.shuffle] and its torch and numpy relatives permute *)
Hypothesis shuffle_perm :
  forall (r : Rng w) (l : list nat), Permutation l (fst (shuffle w r l)).

Local Open Scope nat_scope.


Lemma with_fresh_models_same (s : state w) :
  same_sets s (with_fresh_models w s) /\ log (with_fresh_models w s) = log s.
Proof. unfold with_fresh_models. destruct (fresh w (rng s)). now repeat split. Qed.

Lemma Sampler_exhausted (s : state w) :
  length (unlabeled_set s) < SUBSET cfg ->
  Sampler cfg w s = (Raise PoolExhaustedError, s).
Proof.
  intros Hlt. unfold Sampler, bind, get.
  apply Nat.ltb_lt in Hlt. now rewrite Hlt.
Qed.

Lemma Sampler_Ok (s s' : state w) (u rl : list Q) (subset : list nat) :
  Sampler cfg w s = (Ok (u, rl, subset), s') ->
  SUBSET cfg <= length (unlabeled_set s) /\
  labeled_set s' = labeled_set s /\
  unlabeled_set s' = unlabeled_set s /\
  (exists pool, Permutation (unlabeled_set s) pool /\
                subset = firstn (SUBSET cfg) pool) /\
  length u = length subset /\
  log s' = log s ++ [Sampled subset].
Proof.
  unfold Sampler, bind, get.
  destruct (Nat.ltb_spec (length (unlabeled_set s)) (SUBSET cfg)); [discriminate|].
  pose proof (shuffle_perm (rng s) (unlabeled_set s)) as Hp.
  destruct (shuffle w (rng s) (unlabeled_set s)) as [pool r]. simpl in Hp.
  unfold modify. destruct (models s) as [net|]; [|discriminate].
  unfold ret. intros [= <- <- <- <-]. simpl.
  repeat split; auto; [now exists pool|now rewrite length_map].
Qed.

Lemma acquire_Ok (u : list Q) (subset : list nat) (s s' : state w) :
  acquire cfg w u subset s = (Ok tt, s') ->
  exists picked rest,
    select (ADDENDUM cfg) u subset = Ok (picked, rest) /\
    labeled_set s' = labeled_set s ++ picked /\
    unlabeled_set s' = rest ++ skipn (SUBSET cfg) (unlabeled_set s) /\
    log s' = log s ++ [Acquired (labeled_set s') (unlabeled_set s')].
Proof.
  unfold acquire. intros H.
  apply bind_Ok in H as ([picked rest] & s1 & H1 & H).
  apply lift_Ok in H1 as [Hsel ->].
  apply bind_Ok in H as (? & s2 & H2 & H). apply modify_Ok in H2.
  apply bind_Ok in H as (? & s3 & H3 & H). apply DataLoader_Ok in H3 as [-> _].
  apply bind_Ok in H as (? & s4 & H4 & H). apply modify_Ok in H4.
  apply bind_Ok in H as (? & s5 & H5 & H). apply DataLoader_Ok in H5 as [-> _].
  apply modify_Ok in H. subst. exists picked, rest. now repeat split.
Qed.

(** lines 303-312 on success: the index lists after the scoring are those
    before it, and the subpool is a draw from the unlabeled one *)
Lemma train_and_sample_Ok (s s' : state w) (u rl : list Q) (subset : list nat) :
  train_and_sample cfg w s = (Ok (u, rl, subset), s') ->
  SUBSET cfg <= length (unlabeled_set s) /\
  labeled_set s' = labeled_set s /\
  unlabeled_set s' = unlabeled_set s /\
  (exists pool, Permutation (unlabeled_set s) pool /\
                subset = firstn (SUBSET cfg) pool) /\
  length u = length subset.
Proof.
  unfold train_and_sample. destruct (middle_pick cfg); intros H.
  - apply bind_Ok in H as (m & s1 & H1 & H). apply lift_Ok in H1 as [_ ->].
    apply bind_Ok in H as ([] & s2 & H2 & H). apply train_Ok in H2 as [[Hl2 Hu2] _].
    apply bind_Ok in H as ([[u' rl'] sub'] & s3 & H3 & H).
    apply Sampler_Ok in H3 as (Hn & Hl3 & Hu3 & Hsub & Hlen & _).
    apply bind_Ok in H as (m' & s4 & H4 & H). apply lift_Ok in H4 as [_ ->].
    apply bind_Ok in H as ([] & s5 & H5 & H). apply train_Ok in H5 as [[Hl5 Hu5] _].
    unfold ret in H. injection H as <- <- <- <-.
    rewrite Hl5, Hu5, Hl3, Hu3. rewrite Hu2 in Hn, Hsub. rewrite Hl2, Hu2.
    now repeat split.
  - apply bind_Ok in H as ([] & s2 & H2 & H). apply train_Ok in H2 as [[Hl2 Hu2] _].
    apply Sampler_Ok in H as (Hn & Hl3 & Hu3 & Hsub & Hlen & _).
    rewrite Hl3, Hu3. rewrite Hu2 in Hn, Hsub. rewrite Hl2, Hu2. now repeat split.
Qed.

(** one completed cycle: the scoring returned a subpool, and its entries,
    in the ascending order of their scores, are split between the two
    lists; of the unlabeled list the part behind its first SUBSET
    entries is kept *)
Lemma cycle_sampled (trial cyc : nat) (s s' : state w) :
  cycle cfg w trial cyc s = (Ok tt, s') ->
  exists u rl subset s1 sorted,
    train_and_sample cfg w (with_fresh_models w s) = (Ok (u, rl, subset), s1) /\
    Permutation sorted subset /\
    labeled_set s' = labeled_set s ++ Py.last_k (ADDENDUM cfg) sorted /\
    unlabeled_set s'
    = Py.drop_last_k (ADDENDUM cfg) sorted ++ skipn (SUBSET cfg) (unlabeled_set s).
Proof.
  unfold cycle. intros H.
  apply bind_Ok in H as (? & s2 & H2 & H). apply modify_Ok in H2.
  destruct (with_fresh_models_same s) as [[Hfl Hfu] _].
  apply bind_Ok in H as ([[u rl] subset] & s3 & H3 & H). subst s2.
  pose proof (train_and_sample_Ok _ _ _ _ _ H3) as (Hn & Hl & Hu & Hsub & Hlen).
  rewrite Hfl in Hl. rewrite Hfu in Hu.
  apply bind_Ok in H as (acc & s4 & H4 & H).
  pose proof (test_reads w "test" s3) as Ht. rewrite H4 in Ht. simpl in Ht. subst s4.
  apply bind_Ok in H as (? & s5 & H5 & H). apply modify_Ok in H5.
  apply bind_Ok in H as (? & s6 & H6 & H). apply plot_picked_Ok in H6 as [-> _].
  apply acquire_Ok in H as (picked & rest & Hsel & Hl' & Hu' & _).
  subst s5. simpl in Hsel, Hl', Hu'.
  destruct (select_aligned (ADDENDUM cfg) u subset Hlen) as (sorted & Hs & Hsel').
  rewrite Hsel' in Hsel. injection Hsel as <- <-.
  exists u, rl, subset, s3, sorted. rewrite Hl', Hu', Hl, Hu. now repeat split.
Qed.

Lemma cycle_Ok (trial cyc : nat) (s s' : state w) :
  cycle cfg w trial cyc s = (Ok tt, s') ->
  exists pool sorted,
    Permutation (unlabeled_set s) pool /\
    SUBSET cfg <= length pool /\
    Permutation sorted (firstn (SUBSET cfg) pool) /\
    labeled_set s' = labeled_set s ++ Py.last_k (ADDENDUM cfg) sorted /\
    unlabeled_set s'
    = Py.drop_last_k (ADDENDUM cfg) sorted ++ skipn (SUBSET cfg) (unlabeled_set s).
Proof.
  intros H. apply cycle_sampled in H as (u & rl & subset & s1 & sorted & H & Hs & Hl & Hu).
  apply train_and_sample_Ok in H as (Hn & _ & _ & (pool & Hp & ->) & _).
  destruct (with_fresh_models_same s) as [[_ Hfu] _]. rewrite Hfu in Hn, Hp.
  exists pool, sorted. repeat split; auto. now rewrite <- (Permutation_length Hp).
Qed.

Lemma initial_split_Ok (trial : nat) (s s' : state w) :
  initial_split cfg w trial s = (Ok tt, s') ->
  exists indices,
    Permutation (seq 0 (NUM_TRAIN cfg)) indices /\
    labeled_set s' = firstn (INITIALQUERY cfg) indices /\
    unlabeled_set s' = skipn (INITIALQUERY cfg) indices.
Proof.
  unfold initial_split. intros H.
  apply bind_Ok in H as (? & s1 & H1 & H). apply modify_Ok in H1.
  apply bind_Ok in H as (s0 & s2 & H2 & H). apply get_Ok in H2 as [-> ->].
  pose proof (shuffle_perm (rng s1) (seq 0 (NUM_TRAIN cfg))) as Hp.
  destruct (shuffle w (rng s1) (seq 0 (NUM_TRAIN cfg))) as [indices r]. simpl in Hp.
  apply bind_Ok in H as (? & s3 & H3 & H). apply modify_Ok in H3.
  apply bind_Ok in H as (? & s4 & H4 & H). apply DataLoader_Ok in H4 as [-> _].
  apply DataLoader_Ok in H as [-> _]. subst s3. exists indices. now repeat split.
Qed.






(** the first [k] rounds of the loop are a run of their own *)
Lemma cycles_prefix (trial k j : nat) (s : state w) :
  cycles cfg w trial (k + j) s =
  bind (cycles cfg w trial k) (fun _ => for_each (cycle cfg w trial) (seq k j)) s.
Proof. unfold cycles. rewrite seq_app. apply for_each_app. Qed.

(** what one completed cycle appends, for any ADDENDUM: the whole subpool
    when it is 0, since [x[-0:]] is [x] *)
Lemma cycle_grows_by (trial cyc : nat) (s s' : state w) :
  cycle cfg w trial cyc s = (Ok tt, s') ->
  exists picked, labeled_set s' = labeled_set s ++ picked /\
                 length picked = match ADDENDUM cfg with
                                 | O => SUBSET cfg
                                 | S _ => Nat.min (ADDENDUM cfg) (SUBSET cfg)
                                 end.
Proof.
  intros H. apply cycle_Ok in H as (pool & sorted & _ & Hn & Hs & Hl & _).
  eexists; split; [exact Hl|].
  assert (Hlen : length sorted = SUBSET cfg)
    by (rewrite (Permutation_length Hs), length_firstn; lia).
  destruct (ADDENDUM cfg) as [|a] eqn:E; [exact Hlen|].
  rewrite last_k_length by lia. now rewrite Hlen.
Qed.

Lemma cycles_grow_by (trial : nat) (l : list nat) (s s' : state w) :
  for_each (cycle cfg w trial) l s = (Ok tt, s') ->
  length (labeled_set s') = length (labeled_set s) + length l * increment cfg.
Proof.
  revert s; induction l as [|c l IH]; simpl; intros s H.
  - unfold ret in H. injection H as <-. lia.
  - apply bind_Ok in H as ([] & s1 & H1 & H).
    apply cycle_grows_by in H1 as (picked & Hl & Hlen). fold (increment cfg) in Hlen.
    rewrite (IH _ H), Hl, length_app. lia.
Qed.

(** C2.  The initial split labels INITIALQUERY indices, or all NUM_TRAIN
    when there are fewer than that.  Every completed cycle appends the
    last ADDENDUM of the SUBSET sorted subpool entries: ADDENDUM of them
    when ADDENDUM is between 1 and SUBSET, all SUBSET when it is above,
    and all SUBSET also when it is 0.  After [n] completed cycles the
    labeled list holds the initial number plus [n] times that; this is
    INITIALQUERY + n * ADDENDUM when INITIALQUERY <= NUM_TRAIN and
    0 < ADDENDUM <= SUBSET. *)
Theorem labeled_set_size (trial n : nat) (s s' : state w) :
  bind (initial_split cfg w trial) (fun _ => cycles cfg w trial n) s = (Ok tt, s') ->
  length (labeled_set s')
  = Nat.min (INITIALQUERY cfg) (NUM_TRAIN cfg) + n * increment cfg /\
  (forall s1, initial_split cfg w trial s = (Ok tt, s1) ->
              length (labeled_set s1) = Nat.min (INITIALQUERY cfg) (NUM_TRAIN cfg)) /\
  (forall cyc a b, cycle cfg w trial cyc a = (Ok tt, b) ->
                   exists picked, labeled_set b = labeled_set a ++ picked /\
                                  length picked = increment cfg) /\
  (0 < ADDENDUM cfg -> increment cfg = Nat.min (ADDENDUM cfg) (SUBSET cfg)) /\
  (ADDENDUM cfg = 0 -> increment cfg = SUBSET cfg) /\
  (INITIALQUERY cfg <= NUM_TRAIN cfg -> 0 < ADDENDUM cfg <= SUBSET cfg ->
   length (labeled_set s') = INITIALQUERY cfg + n * ADDENDUM cfg).
Proof.
  intros H.
  assert (Hsplit : forall s1, initial_split cfg w trial s = (Ok tt, s1) ->
            length (labeled_set s1) = Nat.min (INITIALQUERY cfg) (NUM_TRAIN cfg)).
  { intros s1 H1. apply initial_split_Ok in H1 as (indices & Hp & Hl & _).
    now rewrite Hl, length_firstn, <- (Permutation_length Hp), length_seq. }
  assert (Hsize : length (labeled_set s')
                  = Nat.min (INITIALQUERY cfg) (NUM_TRAIN cfg) + n * increment cfg).
  { apply bind_Ok in H as ([] & s1 & H1 & H).
    unfold cycles in H. rewrite (cycles_grow_by _ _ _ _ H), length_seq.
    now rewrite (Hsplit _ H1). }
  split; [exact Hsize|]. split; [exact Hsplit|]. split.
  { intros cyc a b Hc. exact (cycle_grows_by _ _ _ _ Hc). }
  split; [unfold increment; destruct (ADDENDUM cfg); [lia|reflexivity]|].
  split; [unfold increment; now intros ->|].
  intros HI HA. rewrite Hsize. unfold increment.
  destruct (ADDENDUM cfg) eqn:E; [lia|]. rewrite <- E in *.
  rewrite Nat.min_l, Nat.min_l by lia. reflexivity.
Qed.

Lemma cycle_needs_pool (trial cyc : nat) (s s' : state w) :
  cycle cfg w trial cyc s = (Ok tt, s') -> SUBSET cfg <= length (unlabeled_set s).
Proof.
  intros H. apply cycle_Ok in H as (pool & _ & Hp & Hn & _).
  now rewrite (Permutation_length Hp).
Qed.

Lemma train_before_scoring_Ok (s s1 : state w) :
  train_before_scoring cfg w s = (Ok tt, s1) ->
  same_sets s s1 /\
  exists a b evs, Forall is_step evs /\
    log s1 = log s ++ Print_train a b (labeled_set s) :: evs ++ [Print_finished].
Proof.
  unfold train_before_scoring. destruct (middle_pick cfg); intros H.
  - apply bind_Ok in H as (m & s0 & H0 & H). apply lift_Ok in H0 as [_ ->].
    apply train_Ok in H as [Hs (evs & Hf & Hg)]. split; [exact Hs|].
    now exists 0, m, evs.
  - apply train_Ok in H as [Hs (evs & Hf & Hg)]. split; [exact Hs|].
    now exists 0, (EPOCH cfg), evs.
Qed.

Lemma train_and_sample_exhausted (s s1 : state w) :
  train_before_scoring cfg w s = (Ok tt, s1) ->
  length (unlabeled_set s) < SUBSET cfg ->
  train_and_sample cfg w s = (Raise PoolExhaustedError, s1).
Proof.
  intros Ht Hlt.
  assert (Hs : Sampler cfg w s1 = (Raise PoolExhaustedError, s1)).
  { apply Sampler_exhausted. apply train_before_scoring_Ok in Ht as [[_ Hu] _].
    now rewrite Hu. }
  unfold train_before_scoring in Ht. unfold train_and_sample.
  destruct (middle_pick cfg).
  - unfold bind, lift in *. destruct (first_milestone cfg) as [m|]; [|discriminate].
    rewrite Ht, Hs. reflexivity.
  - unfold bind. now rewrite Ht.
Qed.

(** C7.  When a cycle starts with fewer unlabeled indices than SUBSET
    it cannot complete.  If the training that precedes the scoring runs
    through, the scoring fails with PoolExhaustedError without touching
    either index list or drawing a subpool, the cycle fails with that
    error, and so does the loop over the remaining cycles of the trial.
    (The sampler is the modelled one; the loop has no handler.) *)
Theorem exhausted_pool_stops_trial (trial cyc : nat) (rest : list nat) (s s1 : state w) :
  length (unlabeled_set s) < SUBSET cfg ->
  train_before_scoring cfg w (with_fresh_models w s) = (Ok tt, s1) ->
  (forall s', cycle cfg w trial cyc s <> (Ok tt, s')) /\
  Sampler cfg w s1 = (Raise PoolExhaustedError, s1) /\
  cycle cfg w trial cyc s = (Raise PoolExhaustedError, s1) /\
  for_each (cycle cfg w trial) (cyc :: rest) s = (Raise PoolExhaustedError, s1) /\
  labeled_set s1 = labeled_set s /\
  unlabeled_set s1 = unlabeled_set s /\
  (forall subset, ~ In (Sampled subset) (skipn (length (log s)) (log s1))).
Proof.
  intros Hlt Ht.
  destruct (with_fresh_models_same s) as [Hf Hg].
  pose proof (train_before_scoring_Ok _ _ Ht) as [Hs (a & b & evs & Hstep & Hlog)].
  destruct Hf as [Hfl Hfu]. destruct Hs as [Hl Hu].
  assert (Hc : cycle cfg w trial cyc s = (Raise PoolExhaustedError, s1)).
  { unfold cycle.
    erewrite bind_step with (a := tt) (s1 := with_fresh_models w s) by reflexivity.
    apply bind_Raise. apply train_and_sample_exhausted; [exact Ht|].
    now rewrite Hfu. }
  split; [|split; [|split; [|split; [|split; [|split]]]]].
  - intros s' H. apply cycle_needs_pool in H. lia.
  - apply Sampler_exhausted. rewrite Hu, Hfu. exact Hlt.
  - exact Hc.
  - simpl. now apply bind_Raise.
  - congruence.
  - congruence.
  - intros subset Hin. rewrite Hlog, Hg in Hin.
    rewrite skipn_app, skipn_all, Nat.sub_diag in Hin. simpl in Hin.
    destruct Hin as [Hin|Hin]; [discriminate|].
    apply in_app_or in Hin as [Hin|[Hin|[]]]; [|discriminate].
    rewrite Forall_forall in Hstep. exact (Hstep _ Hin).
Qed.

End ControllerFacts.

(** ** The selection policy *)

Section SelectionClaim.

Variable cfg : config.
Variable w : world.

Local Open Scope nat_scope.

Lemma StronglySorted_map {A B} (R : B -> B -> Prop) (f : A -> B) (l : list A) :
  StronglySorted (fun a b => R (f a) (f b)) l -> StronglySorted R (map f l).
Proof.
  induction 1 as [|a l _ IH Hall]; simpl; constructor; [exact IH|].
  apply Forall_map. exact Hall.
Qed.

Lemma StronglySorted_app_le {A} (R : A -> A -> Prop) (l1 l2 : list A) :
  StronglySorted R (l1 ++ l2) ->
  forall a b, In a l1 -> In b l2 -> R a b.
Proof.
  induction l1 as [|x l1 IH]; simpl; intros Hs a b Ha Hb; [contradiction|].
  apply StronglySorted_inv in Hs as [Hs Hx]. destruct Ha as [<-|Ha].
  - rewrite Forall_forall in Hx. apply Hx, in_or_app. now right.
  - now apply IH.
Qed.

(** C5.  The scored subpool is put in ascending order of the predicted
    score and, for a positive ADDENDUM, cut ADDENDUM entries before its
    end: the tail, whose scores are at least those of every entry before
    the cut, is appended to the labeled list and the entries before the
    cut go back to the unlabeled list.  On the subpool with indices 5, 7,
    9 and scores 0.1, 0.9, 0.5 an addendum of 1 selects 7 and an
    addendum of 2 selects 9 and 7. *)
Theorem selection_takes_highest_scores (scored : list (nat * Q)) :
  0 < ADDENDUM cfg ->
  (exists sorted : list (nat * Q),
      let cut := length scored - ADDENDUM cfg in
      Permutation sorted scored /\
      StronglySorted (fun a b => (snd a <= snd b)%Q) sorted /\
      select (ADDENDUM cfg) (map snd scored) (map fst scored)
      = Ok (map fst (skipn cut sorted), map fst (firstn cut sorted)) /\
      length (skipn cut sorted) = Nat.min (ADDENDUM cfg) (length scored) /\
      (forall a b, In a (firstn cut sorted) -> In b (skipn cut sorted) ->
                   (snd a <= snd b)%Q) /\
      (forall s s' : state w,
          acquire cfg w (map snd scored) (map fst scored) s = (Ok tt, s') ->
          labeled_set s' = labeled_set s ++ map fst (skipn cut sorted) /\
          unlabeled_set s' =
          map fst (firstn cut sorted) ++ skipn (SUBSET cfg) (unlabeled_set s))) /\
  select 1 [1 # 10; 9 # 10; 5 # 10]%Q [5; 7; 9] = Ok ([7], [5; 9]) /\
  select 2 [1 # 10; 9 # 10; 5 # 10]%Q [5; 7; 9] = Ok ([9; 7], [5]).
Proof.
  intros HA. split; [|split; reflexivity].
  set (arg := Py.argsort (map snd scored)).
  set (d := (0, 0%Q) : nat * Q).
  exists (map (fun i => nth i scored d) arg). cbv zeta.
  assert (Hperm : Permutation arg (seq 0 (length scored))).
  { unfold arg. rewrite <- (length_map snd scored). apply argsort_perm. }
  destruct (index_by_perm d scored arg Hperm) as [_ Hp].
  assert (Hsorted : StronglySorted (fun a b => (snd a <= snd b)%Q)
                                   (map (fun i => nth i scored d) arg)).
  { apply StronglySorted_map.
    pose proof (argsort_ascending (map snd scored)) as Ha.
    unfold ascending, Py.key in Ha. fold arg in Ha.
    eapply StronglySorted_ind with (l := arg); [constructor| |exact Ha].
    intros i l Hl IH Hall. constructor; [exact IH|].
    eapply Forall_impl; [|exact Hall]. intros j Hj. simpl in Hj.
    change 0%Q with (snd d) in Hj. now rewrite !map_nth in Hj. }
  assert (Hsel : select (ADDENDUM cfg) (map snd scored) (map fst scored)
                 = Ok (map fst (skipn (length scored - ADDENDUM cfg)
                                      (map (fun i => nth i scored d) arg)),
                       map fst (firstn (length scored - ADDENDUM cfg)
                                       (map (fun i => nth i scored d) arg)))).
  { unfold select. fold arg.
    rewrite (index_in_range 0 (map fst scored) arg).
    - simpl rbind. destruct (ADDENDUM cfg) as [|k]; [lia|].
      unfold Py.last_k, Py.drop_last_k.
      rewrite length_map, (Permutation_length Hperm), length_seq.
      rewrite <- skipn_map, <- firstn_map, map_map.
      do 2 f_equal; f_equal; apply map_ext; intros i;
        change 0 with (fst d); now rewrite map_nth.
    - rewrite Hperm, length_map. apply Forall_forall.
      intros i Hi. apply in_seq in Hi. lia. }
  split; [exact Hp|]. split; [exact Hsorted|]. split; [exact Hsel|].
  split; [|split].
  - rewrite length_skipn, (Permutation_length Hp). lia.
  - apply StronglySorted_app_le. now rewrite firstn_skipn.
  - intros s s' H. apply acquire_Ok in H as (picked & rest & Hs & Hl & Hu & _).
    rewrite Hsel in Hs. injection Hs as <- <-. now split.
Qed.

End SelectionClaim.

(** ** Failures inside the training loop *)

Section TrainingClaims.

Variable cfg : config.
Variable w : world.

Local Open Scope nat_scope.


(** C6.  The ranking loss refuses every input of odd length with the
    assertion failure of line 60, whatever the other arguments.  When
    the ranking loss is the configured auxiliary loss, a batch of odd
    size makes the training step fail with that error before the
    backward pass and the optimizer steps: the networks and the log are
    those from before the batch, only the iteration counter has moved,
    and the epoch does not go on to further batches. *)
Theorem odd_batch_fails_before_update
        (epoch epoch_loss : nat) (vis : option visdom) (plot_data : bool)
        (batch : list nat) (later : list (list nat)) (s : state w) (net : Net w) :
  aux1 cfg = "MarginRankingLoss"%string ->
  models s = Some net ->
  (length batch mod 2 =? 0) = false ->
  (forall input target margin reduction,
      length input = length batch ->
      LossPredLoss input target margin reduction = Raise not_even) /\
  train_batch cfg w epoch epoch_loss vis plot_data batch s
  = (Raise not_even, set_iters (S (iters s)) s) /\
  for_each (train_batch cfg w epoch epoch_loss vis plot_data) (batch :: later) s
  = (Raise not_even, set_iters (S (iters s)) s) /\
  models (set_iters (S (iters s)) s) = models s /\
  log (set_iters (S (iters s)) s) = log s.
Proof.
  intros Haux Hm Hodd.
  assert (Hb : train_batch cfg w epoch epoch_loss vis plot_data batch s
               = (Raise not_even, set_iters (S (iters s)) s)).
  { unfold train_batch, bind, modify, get, lift. cbn [models set_iters].
    rewrite Hm. unfold forward_losses, module_loss. rewrite Haux.
    cbn [String.eqb Ascii.eqb Bool.eqb].
    rewrite odd_length_asserts by now rewrite length_map.
    reflexivity. }
  split; [|split; [exact Hb|split; [|split; reflexivity]]].
  - intros input target margin reduction Hlen.
    apply odd_length_asserts. now rewrite Hlen.
  - simpl. now apply bind_Raise.
Qed.


End TrainingClaims.

(** ** The order of events in mid-pick mode *)

Section MidPickClaim.

Variable cfg : config.
Variable w : world.

Hypothesis shuffle_perm :
  forall (r : Rng w) (l : list nat), Permutation l (fst (shuffle w r l)).

Local Open Scope nat_scope.

Lemma last_k_incl {A} (k : nat) (x : list A) : incl (Py.last_k k x) x.
Proof.
  intros a Ha. eapply Permutation_in; [apply (last_drop_perm k x)|].
  apply in_or_app. now left.
Qed.

(** C9, as the code has it.  A completed cycle in mid-pick mode trains
    the epochs before the first milestone, scores a subpool, trains the
    epochs from the milestone to EPOCH on the labeled list the cycle
    started with, tests, and only then moves the acquired indices,
    which come from the subpool scored between the two phases. *)
Theorem mid_pick_acquires_after_second_phase (trial cyc : nat) (s s' : state w) :
  middle_pick cfg = true ->
  cycle cfg w trial cyc s = (Ok tt, s') ->
  exists m steps1 subset steps2 acc picked,
    first_milestone cfg = Ok m /\
    Forall is_step steps1 /\
    Forall is_step steps2 /\
    log s' = log s ++
             Print_train 0 m (labeled_set s) :: steps1 ++
             Print_finished :: Sampled subset ::
             Print_train m (EPOCH cfg) (labeled_set s) :: steps2 ++
             [Print_finished;
              Print_acc (trial + 1) (cyc + 1) (length (labeled_set s)) acc;
              Acquired (labeled_set s') (unlabeled_set s')] /\
    labeled_set s' = labeled_set s ++ picked /\
    incl picked subset.
Proof.
  intros Hmid H. unfold cycle in H.
  apply bind_Ok in H as (? & s2 & H2 & H). apply modify_Ok in H2.
  destruct (with_fresh_models_same w s) as [[Hfl Hfu] Hfg]. subst s2.
  apply bind_Ok in H as ([[u rl] subset] & s3 & H3 & H).
  unfold train_and_sample in H3. rewrite Hmid in H3.
  apply bind_Ok in H3 as (m & t1 & H1 & H3). apply lift_Ok in H1 as [Hm ->].
  apply bind_Ok in H3 as ([] & t2 & Ht2 & H3).
  apply train_Ok in Ht2 as [[Hl2 Hu2] (steps1 & Hs1 & Hg2)].
  apply bind_Ok in H3 as ([[u' rl'] sub'] & t3 & Ht3 & H3).
  apply (Sampler_Ok cfg w shuffle_perm) in Ht3 as (_ & Hl3 & _ & Hsub & Hlen & Hg3).
  apply bind_Ok in H3 as (m' & t4 & H4 & H3). apply lift_Ok in H4 as [Hm' ->].
  apply bind_Ok in H3 as ([] & t5 & Ht5 & H3).
  apply train_Ok in Ht5 as [[Hl5 Hu5] (steps2 & Hs2 & Hg5)].
  unfold ret in H3. injection H3 as <- <- <- <-.
  assert (m' = m) by congruence. subst m'.
  apply bind_Ok in H as (acc & s4 & H4 & H).
  pose proof (test_reads w "test" t5) as Ht. rewrite H4 in Ht. simpl in Ht. subst s4.
  apply bind_Ok in H as (? & s5 & H5 & H). apply modify_Ok in H5.
  apply bind_Ok in H as (? & s6 & H6 & H). apply (plot_picked_Ok cfg w) in H6 as [-> _].
  apply acquire_Ok in H as (picked & rest & Hsel & Hl' & Hu' & Hg').
  subst s5. simpl in Hsel, Hl', Hu', Hg'.
  destruct (select_aligned (ADDENDUM cfg) u' sub' Hlen) as (sorted & Hso & Hsel').
  rewrite Hsel' in Hsel. injection Hsel as <- <-.
  assert (HL : labeled_set t5 = labeled_set s) by congruence.
  exists m, steps1, sub', steps2, acc, (Py.last_k (ADDENDUM cfg) sorted).
  split; [exact Hm|]. split; [exact Hs1|]. split; [exact Hs2|]. split; [|split].
  - rewrite Hg', Hg5, Hg3, Hg2, Hfg, HL, Hl3, Hl2, Hfl.
    rewrite <- !app_assoc. simpl. rewrite <- !app_assoc. reflexivity.
  - now rewrite Hl', HL.
  - intros i Hi. apply (Permutation_in _ Hso).
    exact (last_k_incl (ADDENDUM cfg) sorted i Hi).
Qed.

End MidPickClaim.

(** ** The concrete instance *)

Lemma demo_shuffle_perm (sink : list nat -> list (list pyval) -> result unit)
      (r : Rng (Demo.world_with sink)) (l : list nat) :
  Permutation l (fst (shuffle (Demo.world_with sink) r l)).
Proof.
  simpl. unfold Demo.reverse_on_even. simpl.
  destruct (Nat.even r); [apply Permutation_rev|reflexivity].
Qed.



Lemma labeled_set_size_witness :
  length (labeled_set Demo.two_cycles)
  = (Nat.min 2 12 + 2 * increment Demo.config0)%nat.
Proof.
  refine (proj1 (labeled_set_size Demo.config0 Demo.world0
                   (demo_shuffle_perm Demo.sink_ok) 0 2 (boot Demo.world0)
                   Demo.two_cycles _)).
  vm_compute. reflexivity.
Defined.

(** with ADDENDUM = 0 the first cycle labels the whole subpool of four *)
Lemma zero_addendum_appends_subpool :
  fst (bind (initial_split Demo.nothing_added Demo.world0 0)
            (fun _ => cycles Demo.nothing_added Demo.world0 0 1) (boot Demo.world0))
  = Ok tt /\
  length (labeled_set
            (snd (bind (initial_split Demo.nothing_added Demo.world0 0)
                       (fun _ => cycles Demo.nothing_added Demo.world0 0 1)
                       (boot Demo.world0))))
  <> (INITIALQUERY Demo.nothing_added + 1 * ADDENDUM Demo.nothing_added)%nat.
Proof.
  split; [vm_compute; reflexivity|]. vm_compute. intros H. discriminate H.
Qed.

Lemma exhausted_pool_stops_trial_witness :
  cycle Demo.tiny Demo.world0 0 0 (Demo.after_split Demo.tiny)
  = (Raise PoolExhaustedError,
     snd (train_before_scoring Demo.tiny Demo.world0
            (with_fresh_models Demo.world0 (Demo.after_split Demo.tiny)))).
Proof.
  refine (proj1 (proj2 (proj2
            (exhausted_pool_stops_trial Demo.tiny Demo.world0
               (demo_shuffle_perm Demo.sink_ok) 0 0 [1%nat]
               (Demo.after_split Demo.tiny) _ _ _)))).
  - vm_compute. lia.
  - vm_compute. reflexivity.
Defined.

Lemma selection_takes_highest_scores_witness :
  select 1 [1 # 10; 9 # 10; 5 # 10]%Q [5; 7; 9]%nat = Ok ([7], [5; 9])%nat /\
  select 2 [1 # 10; 9 # 10; 5 # 10]%Q [5; 7; 9]%nat = Ok ([9; 7], [5])%nat.
Proof.
  refine (proj2 (selection_takes_highest_scores Demo.config0 Demo.world0
                   [(5, 1 # 10); (7, 9 # 10); (9, 5 # 10)]%nat _)).
  simpl. lia.
Defined.

(** with ADDENDUM = 0 the slice [x[-0:]] is the whole list: all three
    indices of the example are selected and none goes back *)
Lemma zero_addendum_selects_everything :
  select 0 [1 # 10; 9 # 10; 5 # 10]%Q [5; 7; 9]%nat = Ok ([5; 9; 7], [])%nat.
Proof. reflexivity. Qed.

Lemma odd_batch_fails_before_update_witness :
  train_batch Demo.config0 Demo.world0 0 1 (Some Demo.sink_ok) true [1; 2; 3]%nat
              (with_fresh_models Demo.world0 (boot Demo.world0))
  = (Raise not_even,
     set_iters 1 (with_fresh_models Demo.world0 (boot Demo.world0))).
Proof.
  apply (odd_batch_fails_before_update Demo.config0 Demo.world0 0 1
           (Some Demo.sink_ok) true [1; 2; 3]%nat []
           (with_fresh_models Demo.world0 (boot Demo.world0)) 0%nat);
    reflexivity.
Defined.


Lemma mid_pick_acquires_after_second_phase_witness :
  exists m steps1 subset steps2 acc picked,
    first_milestone Demo.mid = Ok m /\
    Forall is_step steps1 /\
    Forall is_step steps2 /\
    log (snd (cycle Demo.mid Demo.world0 0 0 (Demo.after_split Demo.mid)))
    = log (Demo.after_split Demo.mid) ++
      Print_train 0 m (labeled_set (Demo.after_split Demo.mid)) :: steps1 ++
      Print_finished :: Sampled subset ::
      Print_train m (EPOCH Demo.mid) (labeled_set (Demo.after_split Demo.mid)) :: steps2 ++
      [Print_finished;
       Print_acc (0 + 1) (0 + 1) (length (labeled_set (Demo.after_split Demo.mid))) acc;
       Acquired (labeled_set (snd (cycle Demo.mid Demo.world0 0 0 (Demo.after_split Demo.mid))))
                (unlabeled_set (snd (cycle Demo.mid Demo.world0 0 0 (Demo.after_split Demo.mid))))] /\
    labeled_set (snd (cycle Demo.mid Demo.world0 0 0 (Demo.after_split Demo.mid)))
    = labeled_set (Demo.after_split Demo.mid) ++ picked /\
    incl picked subset.
Proof.
  apply (mid_pick_acquires_after_second_phase Demo.mid Demo.world0
           (demo_shuffle_perm Demo.sink_ok) 0 0 (Demo.after_split Demo.mid)).
  - reflexivity.
  - vm_compute. reflexivity.
Defined.

(** C9, as the claim has it, fails.  In mid-pick mode the first cycle of
    the small instance starts with the labeled indices 11 and 10; the
    second training phase (epochs 1 to 2) runs on these same two indices,
    and the indices 6 and 9 picked from the subpool scored between the
    phases join the labeled list only after that phase and the test. *)
Lemma second_phase_trains_before_acquisition :
  labeled_set (Demo.after_split Demo.mid) = [11; 10]%nat /\
  fst (cycle Demo.mid Demo.world0 0 0 (Demo.after_split Demo.mid)) = Ok tt /\
  log (snd (cycle Demo.mid Demo.world0 0 0 (Demo.after_split Demo.mid)))
  = [Print_train 0 1 [11; 10]; Optim_step 0 [10; 11]; Print_finished;
     Sampled [9; 8; 7; 6];
     Print_train 1 2 [11; 10]; Optim_step 1 [10; 11]; Print_finished;
     Print_acc 1 1 2 (200 # 3);
     Acquired [11; 10; 6; 9] [7; 8; 5; 4; 3; 2; 1; 0]]%nat.
Proof. vm_compute. repeat split. Qed.

(** A run whose labeled list has three entries cuts every epoch into a
    batch of two and a batch of one: the batch of two is trained on, then
    the assertion of the ranking loss ends the run. *)
Lemma odd_last_batch_run :
  fst (main Demo.odd Demo.world0 (boot Demo.world0)) = Raise not_even /\
  log (snd (main Demo.odd Demo.world0 (boot Demo.world0)))
  = [Print_train 0 2 [11; 10; 9]; Optim_step 0 [9; 10]]%nat /\
  models (snd (main Demo.odd Demo.world0 (boot Demo.world0))) = Some 1%nat.
Proof. vm_compute. repeat split. Qed.

(** With five training indices the first scoring already finds too few
    unlabeled ones: the error leaves the loop over the cycles and the loop
    over the trials, and no checkpoint is written. *)
Lemma exhausted_pool_ends_run :
  fst (main Demo.tiny Demo.world0 (boot Demo.world0)) = Raise PoolExhaustedError /\
  log (snd (main Demo.tiny Demo.world0 (boot Demo.world0)))
  = [Print_train 0 2 [4; 3]; Optim_step 0 [3; 4]; Optim_step 1 [4; 3];
     Print_finished]%nat /\
  labeled_set (snd (main Demo.tiny Demo.world0 (boot Demo.world0))) = [4; 3]%nat /\
  unlabeled_set (snd (main Demo.tiny Demo.world0 (boot Demo.world0))) = [2; 1; 0]%nat.
Proof. vm_compute. repeat split. Qed.

(** * Further properties *)

(** ** The loss prediction loss on well-shaped input *)

Section LossPredMore.

Local Open Scope Q_scope.
Import Tensor.

Lemma clamp_min_lower (lo x : Q) : lo <= clamp_min lo x.
Proof.
  unfold clamp_min. destruct (Qle_bool lo x) eqn:E.
  - now apply Qle_bool_iff.
  - apply Qle_refl.
Qed.

Lemma sum_nonneg (v : list Q) : Forall (fun x => 0 <= x) v -> 0 <= sum v.
Proof.
  induction 1 as [|x v Hx _ IH]; simpl; [apply Qle_refl|].
  replace 0 with (0 + 0) by reflexivity. now apply Qplus_le_compat.
Qed.

(** the entry of the unreduced loss for pair [i] *)
Lemma none_entry (input target : list Q) (margin : Q) (i : nat) (d p : Q) :
  length target = length input ->
  (length input mod 2 =? 0)%nat = true ->
  nth_error (half_diff target) i = Some d ->
  nth_error (half_diff input) i = Some p ->
  exists l, LossPredLoss input target margin "none" = Ok (Vector l) /\
            nth_error l i = Some (clamp_min 0 (margin - one_of d * p)).
Proof.
  intros Hlen Heven Hd Hp. unfold LossPredLoss. rewrite Heven.
  cbn [negb String.eqb Ascii.eqb Bool.eqb].
  rewrite hinge_same_length by (now rewrite ones_length, half_diff_length, Hlen).
  eexists; split; [reflexivity|].
  unfold ones. now rewrite nth_error_map, map2_nth_error, nth_error_map, Hd, Hp.
Qed.

(** X1.  On an input of even length with as many true losses as
    predictions, the unreduced loss is a vector with one entry per pair,
    none of them negative; the mean reduction is the sum of these entries
    divided by the number of pairs, which is not negative either, and it
    is NaN exactly when the batch is empty. *)
Theorem ranking_loss_shape_and_sign (input target : list Q) (margin : Q) :
  length target = length input ->
  (length input mod 2 =? 0)%nat = true ->
  exists v,
    LossPredLoss input target margin "none" = Ok (Vector v) /\
    length v = (length input / 2)%nat /\
    Forall (fun x => 0 <= x) v /\
    LossPredLoss input target margin "mean"
    = Ok (Scalar (div_size (sum v) (length input / 2))) /\
    match length input with
    | O => div_size (sum v) (length input / 2) = NaN
    | S _ => exists q, div_size (sum v) (length input / 2) = Fin q /\ 0 <= q
    end.
Proof.
  intros Hlen Heven.
  assert (Hh : hinge margin (ones target) (half_diff input)
               = Ok (map (fun x => clamp_min 0 (margin - x))
                         (map2 Qmult (ones target) (half_diff input))))
    by (apply hinge_same_length; now rewrite ones_length, half_diff_length, Hlen).
  set (v := map (fun x => clamp_min 0 (margin - x))
                (map2 Qmult (ones target) (half_diff input))) in *.
  assert (Hv : Forall (fun x => 0 <= x) v).
  { unfold v. apply Forall_map, Forall_forall. intros x _. apply clamp_min_lower. }
  exists v. split; [|split; [|split; [exact Hv|split]]].
  - unfold LossPredLoss. rewrite Heven. cbn [negb String.eqb Ascii.eqb Bool.eqb].
    now rewrite Hh.
  - unfold v. rewrite length_map, map2_length, ones_length, Hlen; [reflexivity|].
    now rewrite ones_length, half_diff_length, Hlen.
  - unfold LossPredLoss. rewrite Heven. cbn [negb String.eqb Ascii.eqb Bool.eqb].
    rewrite Hh. cbn [rbind]. now rewrite half_diff_length.
  - destruct (length input) as [|[|n]] eqn:E; [reflexivity|discriminate|].
    assert (Hpos : (0 < S (S n) / 2)%nat).
    { apply Nat.div_str_pos. lia. }
    destruct (S (S n) / 2)%nat as [|k] eqn:Ek; [lia|].
    eexists; split; [reflexivity|].
    apply Qmult_le_0_compat; [now apply sum_nonneg|].
    apply Qinv_le_0_compat. unfold Qle. simpl. lia.
Qed.

Lemma ranking_loss_shape_and_sign_witness :
  exists v,
    LossPredLoss [5; 1; 0; 2] [3; 1; 5; 2] 1 "none" = Ok (Vector v) /\
    length v = 2%nat /\
    Forall (fun x => 0 <= x) v.
Proof.
  destruct (ranking_loss_shape_and_sign [5; 1; 0; 2] [3; 1; 5; 2] 1 eq_refl eq_refl)
    as (v & H1 & H2 & H3 & _).
  exists v. now repeat split.
Defined.

(** X2.  A pair costs nothing when the predictions are ordered as the
    true losses are and differ by the margin or more; a pair whose
    predictions are ordered the other way, or not at all, costs the
    margin or more.  (A pair with equal true losses counts as ordered
    downwards.) *)
Theorem ranked_pairs_cost_nothing (input target : list Q) (margin : Q)
        (i : nat) (d p : Q) :
  length target = length input ->
  (length input mod 2 =? 0)%nat = true ->
  nth_error (half_diff target) i = Some d ->
  nth_error (half_diff input) i = Some p ->
  exists l c,
    LossPredLoss input target margin "none" = Ok (Vector l) /\
    nth_error l i = Some c /\
    (0 < d -> margin <= p -> c == 0) /\
    (d <= 0 -> p <= - margin -> c == 0) /\
    (0 < d -> p <= 0 -> margin <= c) /\
    (d <= 0 -> 0 <= p -> margin <= c).
Proof.
  intros Hlen Heven Hd Hp.
  destruct (none_entry input target margin i d p Hlen Heven Hd Hp) as (l & Hl & Hi).
  exists l, (clamp_min 0 (margin - one_of d * p)).
  split; [exact Hl|]. split; [exact Hi|].
  assert (Hzero : forall x, x <= 0 -> clamp_min 0 x == 0).
  { intros x Hx. unfold clamp_min. destruct (Qle_bool 0 x) eqn:E; [|reflexivity].
    apply Qle_bool_iff in E. now apply Qle_antisym. }
  assert (Hbig : forall x, margin <= x -> margin <= clamp_min 0 x).
  { intros x Hx. unfold clamp_min. destruct (Qle_bool 0 x) eqn:E; [exact Hx|].
    assert (x < 0) by (apply Qnot_le_lt; intros H; apply Qle_bool_iff in H; congruence).
    lra. }
  repeat split.
  - intros Hpos Hm. rewrite (one_of_pos d Hpos). apply Hzero.
    lra.
  - intros Hneg Hm. rewrite (one_of_nonpos d Hneg). apply Hzero.
    lra.
  - intros Hpos Hm. rewrite (one_of_pos d Hpos). apply Hbig.
    lra.
  - intros Hneg Hm. rewrite (one_of_nonpos d Hneg). apply Hbig.
    lra.
Qed.

Lemma ranked_pairs_cost_nothing_witness :
  exists l c,
    LossPredLoss [5; 1; 0; 2] [3; 1; 5; 2] 1 "none" = Ok (Vector l) /\
    nth_error l 0 = Some c /\
    (0 < 1 -> 1 <= 3 -> c == 0).
Proof.
  destruct (ranked_pairs_cost_nothing [5; 1; 0; 2] [3; 1; 5; 2] 1 0%nat 1 3
              eq_refl eq_refl eq_refl eq_refl) as (l & c & H1 & H2 & H3 & _).
  exists l, c. now repeat split.
Defined.

(** the signs depend on the true losses only through which halved
    differences are positive *)
Lemma ones_by_order (target target' : list Q) :
  length target = length target' ->
  (forall i d d', nth_error (half_diff target) i = Some d ->
                  nth_error (half_diff target') i = Some d' ->
                  (0 < d <-> 0 < d')) ->
  ones target = ones target'.
Proof.
  intros Hlen Hord. apply nth_error_ext. intros i. unfold ones.
  rewrite !nth_error_map.
  destruct (nth_error (half_diff target) i) as [d|] eqn:Ed;
    destruct (nth_error (half_diff target') i) as [d'|] eqn:Ed'; simpl.
  - f_equal. destruct (Qlt_le_dec 0 d) as [Hd|Hd].
    + rewrite (one_of_pos d Hd), (one_of_pos d'); [reflexivity|].
      now apply (Hord i d d').
    + rewrite (one_of_nonpos d Hd), (one_of_nonpos d'); [reflexivity|].
      destruct (Qlt_le_dec 0 d') as [Hd'|Hd']; [|exact Hd'].
      apply (Hord i d d' Ed Ed') in Hd'. lra.
  - exfalso. apply nth_error_None in Ed'.
    assert (nth_error (half_diff target) i <> None) by congruence.
    apply nth_error_Some in H. rewrite half_diff_length in *. rewrite Hlen in H. lia.
  - exfalso. apply nth_error_None in Ed.
    assert (nth_error (half_diff target') i <> None) by congruence.
    apply nth_error_Some in H. rewrite half_diff_length in *. rewrite Hlen in Ed. lia.
  - reflexivity.
Qed.

(** X3.  The true losses enter the ranking loss only through the order
    inside each pair: two lists of true losses of one length whose paired
    differences are positive at the same pairs give the same result, for
    every input, margin and reduction, failures included. *)
Theorem target_enters_through_order_only
        (input target target' : list Q) (margin : Q) (reduction : string) :
  length target = length target' ->
  (forall i d d', nth_error (half_diff target) i = Some d ->
                  nth_error (half_diff target') i = Some d' ->
                  (0 < d <-> 0 < d')) ->
  LossPredLoss input target margin reduction
  = LossPredLoss input target' margin reduction.
Proof.
  intros Hlen Hord. unfold LossPredLoss.
  now rewrite (ones_by_order target target' Hlen Hord).
Qed.

Lemma target_enters_through_order_only_witness :
  LossPredLoss [5; 1; 0; 2] [3; 1; 5; 2] 1 "mean"
  = LossPredLoss [5; 1; 0; 2] [9; 0; 7; 8] 1 "mean".
Proof.
  apply (target_enters_through_order_only [5; 1; 0; 2] [3; 1; 5; 2] [9; 0; 7; 8] 1 "mean").
  - reflexivity.
  - intros i d d' Hd Hd'. destruct i as [|[|i]].
    + injection Hd as <-. injection Hd' as <-. split; reflexivity.
    + injection Hd as <-. injection Hd' as <-. split; intros H; discriminate H.
    + destruct i; discriminate Hd.
Defined.

End LossPredMore.

(** ** Epochs and batches *)

Section EpochFacts.

Variable cfg : config.
Variable w : world.

Hypothesis shuffle_perm :
  forall (r : Rng w) (l : list nat), Permutation l (fst (shuffle w r l)).

Local Open Scope nat_scope.

Lemma ceil_div_step (n b : nat) :
  0 < n -> 0 < b -> ceil_div n b = S (ceil_div (n - b) b).
Proof.
  intros Hn Hb. unfold ceil_div. destruct (Nat.le_gt_cases b n) as [Hle|Hlt].
  - replace (n + b - 1) with ((n - b + b - 1) + 1 * b) by lia.
    rewrite Nat.div_add by lia. lia.
  - replace (n - b) with 0 by lia. simpl.
    rewrite (Nat.div_small (b - 1) b) by lia.
    symmetry. apply (Nat.div_unique (n + b - 1) b 1 (n - 1)); lia.
Qed.

Lemma chunks_from_length (b fuel : nat) (l : list nat) :
  0 < b -> length l <= fuel ->
  length (chunks_from fuel b l) = ceil_div (length l) b.
Proof.
  intros Hb. revert l. induction fuel as [|fuel IH]; intros l Hl.
  - destruct l; [|simpl in Hl; lia]. simpl. unfold ceil_div. simpl.
    now rewrite Nat.div_small by lia.
  - destruct l as [|x l].
    + simpl. unfold ceil_div. simpl. now rewrite Nat.div_small by lia.
    + cbn [chunks_from]. cbn [length] in Hl.
      change (length (firstn b (x :: l) :: chunks_from fuel b (skipn b (x :: l))))
        with (S (length (chunks_from fuel b (skipn b (x :: l))))).
      rewrite IH by (rewrite length_skipn; cbn [length]; lia).
      rewrite length_skipn. symmetry. apply ceil_div_step; cbn [length]; lia.
Qed.

Lemma chunks_from_concat (b fuel : nat) (l : list nat) :
  0 < b -> length l <= fuel -> concat (chunks_from fuel b l) = l.
Proof.
  intros Hb. revert l. induction fuel as [|fuel IH]; intros l Hl.
  - destruct l; [reflexivity|simpl in Hl; lia].
  - destruct l as [|x l]; [reflexivity|].
    cbn [chunks_from concat]. cbn [length] in Hl.
    rewrite IH by (rewrite length_skipn; cbn [length]; lia).
    apply firstn_skipn.
Qed.

Lemma chunks_from_sizes (b fuel : nat) (l : list nat) :
  0 < b -> Forall (fun c => c <> [] /\ length c <= b) (chunks_from fuel b l).
Proof.
  intros Hb. revert l. induction fuel as [|fuel IH]; intros l; [constructor|].
  destruct l as [|x l]; [constructor|].
  cbn [chunks_from]. constructor; [|apply IH]. split.
  - destruct b; [lia|]. discriminate.
  - rewrite length_firstn. lia.
Qed.

Lemma step_batches_app (a b : list event) :
  step_batches (a ++ b) = step_batches a ++ step_batches b.
Proof. unfold step_batches. apply flat_map_app. Qed.

Lemma visualize_Ok (vis : option visdom) (pd : bool) (L : losses) (s s' : state w) :
  visualize w vis pd L s = (Ok tt, s') ->
  iters s' = iters s /\ same_sets s s' /\ models s' = models s /\
  exists tail, log s' = log s ++ tail /\ step_batches tail = [].
Proof.
  unfold visualize, bind, get.
  destruct ((iters s mod 10 =? 0) && not_None vis && pd).
  - unfold modify. destruct vis as [line|].
    + unfold lift. destruct (line _ _); [|discriminate].
      intros [= <-]. repeat split. now exists [Vis_line (iters s)].
    + unfold ret. intros [= <-]. repeat split. exists []. now rewrite app_nil_r.
  - unfold ret. intros [= <-]. repeat split. exists []. now rewrite app_nil_r.
Qed.

Lemma train_batch_Ok (epoch el : nat) (vis : option visdom) (pd : bool)
      (batch : list nat) (s s' : state w) :
  train_batch cfg w epoch el vis pd batch s = (Ok tt, s') ->
  iters s' = S (iters s) /\ same_sets s s' /\
  exists tail, log s' = log s ++ Optim_step epoch batch :: tail /\
               step_batches tail = [].
Proof.
  unfold train_batch. intros H.
  apply bind_Ok in H as (? & s1 & H1 & H). apply (modify_Ok w) in H1.
  apply bind_Ok in H as (s0 & s2 & H2 & H). apply (get_Ok w) in H2 as [-> ->].
  destruct (models s1) as [net|] eqn:Em; [|discriminate].
  apply bind_Ok in H as (L & s3 & H3 & H). apply (lift_Ok w) in H3 as [_ ->].
  apply bind_Ok in H as (? & s4 & H4 & H). apply (modify_Ok w) in H4.
  apply visualize_Ok in H as (Hi & [Hl Hu] & _ & tail & Hg & Ht).
  subst s4 s1. simpl in *. repeat split; try congruence.
  exists tail. split; [|exact Ht]. rewrite Hg. now rewrite <- app_assoc.
Qed.

Lemma batches_Ok (epoch el : nat) (vis : option visdom) (pd : bool)
      (bs : list (list nat)) (s s' : state w) :
  for_each (train_batch cfg w epoch el vis pd) bs s = (Ok tt, s') ->
  iters s' = iters s + length bs /\ same_sets s s' /\
  exists evs, log s' = log s ++ evs /\ step_batches evs = bs.
Proof.
  revert s. induction bs as [|b bs IH]; simpl; intros s H.
  - unfold ret in H. injection H as <-. repeat split; try lia; try congruence.
    exists []. now rewrite app_nil_r.
  - apply bind_Ok in H as ([] & s1 & H1 & H).
    apply train_batch_Ok in H1 as (Hi & [Hl Hu] & tail & Hg & Ht).
    apply IH in H as (Hi' & [Hl' Hu'] & evs & Hg' & He).
    repeat split; try lia; try congruence.
    exists (Optim_step epoch b :: tail ++ evs). split.
    + rewrite Hg', Hg. now rewrite <- app_assoc.
    + change (Optim_step epoch b :: tail ++ evs)
        with ([Optim_step epoch b] ++ tail ++ evs).
      rewrite !step_batches_app, Ht, He. reflexivity.
Qed.

Lemma train_epoch_Ok (epoch el : nat) (vis : option visdom) (pd : bool)
      (s s' : state w) :
  BATCH cfg <> 0 ->
  train_epoch cfg w epoch el vis pd s = (Ok tt, s') ->
  iters s' = iters s + ceil_div (length (labeled_set s)) (BATCH cfg) /\
  same_sets s s' /\
  exists evs,
    log s' = log s ++ evs /\
    Permutation (concat (step_batches evs)) (labeled_set s) /\
    Forall (fun b => b <> [] /\ length b <= BATCH cfg) (step_batches evs) /\
    length (step_batches evs) = ceil_div (length (labeled_set s)) (BATCH cfg).
Proof.
  intros Hb H. unfold train_epoch in H.
  apply bind_Ok in H as (s0 & s1 & H1 & H). apply (get_Ok w) in H1 as [-> ->].
  destruct (models s) as [net|]; [|discriminate].
  pose proof (shuffle_perm (rng s) (labeled_set s)) as Hp.
  destruct (shuffle w (rng s) (labeled_set s)) as [perm r]. simpl in Hp.
  apply bind_Ok in H as (? & s2 & H2 & H). apply (modify_Ok w) in H2. subst s2.
  apply batches_Ok in H as (Hi & [Hl Hu] & evs & Hg & He).
  simpl in Hi, Hl, Hu, Hg.
  assert (Hc : length (chunks (BATCH cfg) perm)
               = ceil_div (length (labeled_set s)) (BATCH cfg)).
  { unfold chunks. rewrite chunks_from_length by lia.
    now rewrite <- (Permutation_length Hp). }
  split; [now rewrite Hi, Hc|]. split; [now split|].
  exists evs. rewrite He. split; [exact Hg|]. split; [|split; [|exact Hc]].
  - unfold chunks. rewrite chunks_from_concat by lia. now symmetry.
  - apply chunks_from_sizes. lia.
Qed.

(** X6.  An epoch that runs through takes one optimizer step per batch:
    the batches are not empty, hold at most BATCH indices each, and
    together hold every labeled index exactly once; their number, which
    is also what the iteration counter advances by, is the labeled count
    divided by BATCH and rounded up. *)
Theorem epoch_visits_every_labeled_index
        (epoch el : nat) (vis : option visdom) (pd : bool) (s s' : state w) :
  BATCH cfg <> 0 ->
  train_epoch cfg w epoch el vis pd s = (Ok tt, s') ->
  exists evs,
    log s' = log s ++ evs /\
    Permutation (concat (step_batches evs)) (labeled_set s) /\
    Forall (fun b => b <> [] /\ length b <= BATCH cfg) (step_batches evs) /\
    length (step_batches evs) = ceil_div (length (labeled_set s)) (BATCH cfg) /\
    iters s' = iters s + ceil_div (length (labeled_set s)) (BATCH cfg).
Proof.
  intros Hb H.
  destruct (train_epoch_Ok epoch el vis pd s s' Hb H) as (Hi & _ & evs & Hg & Hp & Hf & Hn).
  exists evs. now repeat split.
Qed.

(** the loop over the epochs of [train] *)
Lemma epochs_Ok (el : nat) (vis : option visdom) (pd : bool) (epochs : list nat)
      (s s' : state w) :
  BATCH cfg <> 0 ->
  for_each (fun epoch =>
              bind (train_epoch cfg w epoch el vis pd)
                   (fun _ => modify (fun s => set_models (option_map (sched_step w) (models s)) s)))
           epochs s = (Ok tt, s') ->
  iters s' = iters s + length epochs * ceil_div (length (labeled_set s)) (BATCH cfg) /\
  same_sets s s' /\
  exists evs, log s' = log s ++ evs /\
              length (step_batches evs)
              = length epochs * ceil_div (length (labeled_set s)) (BATCH cfg).
Proof.
  intros Hb. revert s. induction epochs as [|e epochs IH]; simpl; intros s H.
  - unfold ret in H. injection H as <-. repeat split; try lia.
    exists []. now rewrite app_nil_r.
  - apply bind_Ok in H as ([] & s1 & H1 & H).
    apply bind_Ok in H1 as ([] & s2 & H2 & H1). apply (modify_Ok w) in H1.
    apply (train_epoch_Ok e el vis pd s s2 Hb) in H2
      as (Hi & [Hl Hu] & evs & Hg & _ & _ & Hn).
    apply IH in H as (Hi' & [Hl' Hu'] & evs' & Hg' & Hn').
    subst s1. simpl in Hi', Hl', Hu', Hg', Hn'. rewrite Hl in Hi', Hn'.
    split; [lia|]. split; [split; congruence|].
    exists (evs ++ evs'). split.
    + now rewrite Hg', Hg, app_assoc.
    + rewrite step_batches_app, length_app. lia.
Qed.

(** X7.  A call of [train] that runs through advances the iteration
    counter by the number of its epochs times the number of batches of
    one epoch, takes exactly that many optimizer steps, and leaves both
    index lists as they were. *)
Theorem train_counts_iterations
        (a b el : nat) (vis : option visdom) (pd : bool) (s s' : state w) :
  BATCH cfg <> 0 ->
  train cfg w a b el vis pd s = (Ok tt, s') ->
  iters s' = iters s + (b - a) * ceil_div (length (labeled_set s)) (BATCH cfg) /\
  labeled_set s' = labeled_set s /\
  unlabeled_set s' = unlabeled_set s /\
  exists evs, log s' = log s ++ evs /\
              length (step_batches evs)
              = (b - a) * ceil_div (length (labeled_set s)) (BATCH cfg).
Proof.
  intros Hb H. unfold train in H.
  apply bind_Ok in H as (? & s1 & H1 & H). apply (modify_Ok w) in H1.
  apply bind_Ok in H as ([] & s2 & H2 & H3). apply (modify_Ok w) in H3.
  apply (epochs_Ok el vis pd _ s1 s2 Hb) in H2 as (Hi & [Hl Hu] & evs & Hg & Hn).
  subst s1 s'. simpl in *. rewrite length_seq in *.
  repeat split; try assumption.
  exists (Print_train a b (labeled_set s) :: evs ++ [Print_finished]). split.
  - rewrite Hg. now rewrite <- !app_assoc.
  - change (Print_train a b (labeled_set s) :: evs ++ [Print_finished])
      with ([Print_train a b (labeled_set s)] ++ evs ++ [Print_finished]).
    rewrite !step_batches_app. simpl. rewrite length_app. simpl. lia.
Qed.

End EpochFacts.

Lemma epoch_visits_every_labeled_index_witness :
  exists evs,
    log (snd (train_epoch Demo.config0 Demo.world0 0 1 None false Demo.ready))
    = log Demo.ready ++ evs /\
    Permutation (concat (step_batches evs)) (labeled_set Demo.ready) /\
    Forall (fun b => b <> [] /\ (length b <= 2)%nat) (step_batches evs) /\
    length (step_batches evs) = ceil_div (length (labeled_set Demo.ready)) 2 /\
    iters (snd (train_epoch Demo.config0 Demo.world0 0 1 None false Demo.ready))
    = (iters Demo.ready + ceil_div (length (labeled_set Demo.ready)) 2)%nat.
Proof.
  apply (epoch_visits_every_labeled_index Demo.config0 Demo.world0
           (demo_shuffle_perm Demo.sink_ok) 0 1 None false Demo.ready).
  - discriminate.
  - vm_compute. reflexivity.
Defined.

Lemma train_counts_iterations_witness :
  iters (snd (train Demo.config0 Demo.world0 0 2 1 None false Demo.ready))
  = (iters Demo.ready + (2 - 0) * ceil_div (length (labeled_set Demo.ready)) 2)%nat.
Proof.
  refine (proj1 (train_counts_iterations Demo.config0 Demo.world0
                   (demo_shuffle_perm Demo.sink_ok) 0 2 1 None false Demo.ready _ _ _)).
  - discriminate.
  - vm_compute. reflexivity.
Defined.

(** ** Training in two calls *)

Section ResumeFacts.

Variable cfg : config.
Variable w : world.

Local Open Scope nat_scope.

Lemma blind_ret {A} (a : A) : blind (@ret w A a).
Proof. intros s t H. now split. Qed.

Lemma blind_raise {A} (e : exn) : blind (@raise w A e).
Proof. intros s t H. now split. Qed.

Lemma blind_lift {A} (r : result A) : blind (@lift w A r).
Proof. intros s t H. now split. Qed.

Lemma blind_modify (f : state w -> state w) :
  (forall s t, eq_but_log s t -> eq_but_log (f s) (f t)) -> blind (modify f).
Proof. intros Hf s t H. split; [reflexivity|now apply Hf]. Qed.

Lemma blind_bind {A B} (m : M w A) (k : A -> M w B) :
  blind m -> (forall a, blind (k a)) -> blind (bind m k).
Proof.
  intros Hm Hk s t H. unfold bind. destruct (Hm s t H) as [Hr Hs].
  destruct (m s) as [[a|e] s1], (m t) as [[a'|e'] t1]; simpl in *; try discriminate.
  - injection Hr as <-. now apply Hk.
  - injection Hr as <-. split; [reflexivity|exact Hs].
Qed.

Lemma blind_for_each {A} (f : A -> M w unit) (l : list A) :
  (forall x, blind (f x)) -> blind (for_each f l).
Proof.
  intros Hf. induction l as [|x l IH]; simpl.
  - apply blind_ret.
  - apply blind_bind; auto.
Qed.

Ltac fields H :=
  let Hi := fresh "Hi" in let Hx := fresh "Hx" in let Hy := fresh "Hy" in
  let Hr := fresh "Hr" in let Hl := fresh "Hl" in let Hu := fresh "Hu" in
  let Hm := fresh "Hm" in
  destruct H as (Hi & Hx & Hy & Hr & Hl & Hu & Hm).

Ltac same_fields := unfold eq_but_log; simpl; repeat split; congruence.

Lemma blind_get_bind {B} (k : state w -> M w B) :
  (forall s t, eq_but_log s t ->
               fst (k s s) = fst (k t t) /\ eq_but_log (snd (k s s)) (snd (k t t))) ->
  blind (bind get k).
Proof. intros Hk s t H. unfold bind, get. now apply Hk. Qed.

Lemma blind_visualize (vis : option visdom) (pd : bool) (L : losses) :
  blind (visualize w vis pd L).
Proof.
  unfold visualize. apply blind_get_bind. intros s t H. pose proof H as H'. fields H'.
  rewrite Hi, Hx, Hy.
  destruct ((iters t mod 10 =? 0) && not_None vis && pd);
    [|exact (blind_ret tt s t H)].
  refine (blind_bind _ _ _ _ s t H).
  - apply blind_modify. intros a b Hab. fields Hab. same_fields.
  - intros _. destruct vis as [line|]; [|apply blind_ret].
    apply blind_bind; [apply blind_lift|intros _].
    apply blind_modify. intros a b Hab. fields Hab. same_fields.
Qed.

Lemma blind_train_batch (epoch el : nat) (vis : option visdom) (pd : bool)
      (batch : list nat) :
  blind (train_batch cfg w epoch el vis pd batch).
Proof.
  unfold train_batch. apply blind_bind.
  { apply blind_modify. intros a b Hab. fields Hab. same_fields. }
  intros _. apply blind_get_bind. intros s t H. pose proof H as H'. fields H'.
  rewrite Hm. destruct (models t) as [net|]; [|exact (blind_raise TypeError s t H)].
  refine (blind_bind _ _ _ _ s t H); [apply blind_lift|intros L].
  apply blind_bind; [|intros _; apply blind_visualize].
  apply blind_modify. intros a b Hab. fields Hab. same_fields.
Qed.

Lemma blind_train_epoch (epoch el : nat) (vis : option visdom) (pd : bool) :
  blind (train_epoch cfg w epoch el vis pd).
Proof.
  unfold train_epoch. apply blind_get_bind. intros s t H. pose proof H as H'. fields H'.
  rewrite Hm, Hr, Hl.
  destruct (models t) as [net|]; [|exact (blind_raise TypeError s t H)].
  destruct (shuffle w (rng t) (labeled_set t)) as [perm r].
  refine (blind_bind _ _ _ _ s t H).
  - apply blind_modify. intros a b Hab. fields Hab. same_fields.
  - intros _. apply blind_for_each. intros b. apply blind_train_batch.
Qed.

Lemma blind_epochs (el : nat) (vis : option visdom) (pd : bool) (epochs : list nat) :
  blind (for_each (fun epoch =>
                     bind (train_epoch cfg w epoch el vis pd)
                          (fun _ => modify (fun s => set_models (option_map (sched_step w) (models s)) s)))
                  epochs).
Proof.
  apply blind_for_each. intros epoch. apply blind_bind; [apply blind_train_epoch|].
  intros _. apply blind_modify. intros a b Hab. fields Hab. same_fields.
Qed.

(** [train] as one run of its loop between two messages *)
Lemma train_run (a b el : nat) (vis : option visdom) (pd : bool) (s : state w) :
  train cfg w a b el vis pd s =
  match for_each (fun epoch =>
                    bind (train_epoch cfg w epoch el vis pd)
                         (fun _ => modify (fun s => set_models (option_map (sched_step w) (models s)) s)))
                 (seq a (b - a)) (emit (Print_train a b (labeled_set s)) s) with
  | (Ok _, s1) => (Ok tt, emit Print_finished s1)
  | (Raise e, s1) => (Raise e, s1)
  end.
Proof.
  unfold train, bind, modify.
  now destruct (for_each _ _ _) as [[[]|e] s1].
Qed.

Lemma for_each_app_run {A} (f : A -> M w unit) (l1 l2 : list A) (s : state w) :
  for_each f (l1 ++ l2) s =
  match for_each f l1 s with
  | (Ok _, s1) => for_each f l2 s1
  | (Raise e, s1) => (Raise e, s1)
  end.
Proof. rewrite for_each_app. unfold bind. now destruct (for_each f l1 s) as [[[]|e] s1]. Qed.

(** X8.  Training can be resumed: for [a <= b <= c], training the epochs
    from [a] to [b] and then, on the same heap, those from [b] to [c]
    ends, failing or not, as one call for the epochs from [a] to [c]
    does, with the same networks, counter, plot lists, random state and
    index lists; only the printed messages differ. *)
Theorem train_resumes (a b c el : nat) (vis : option visdom) (pd : bool) (s : state w) :
  a <= b <= c ->
  fst (bind (train cfg w a b el vis pd) (fun _ => train cfg w b c el vis pd) s)
  = fst (train cfg w a c el vis pd s) /\
  eq_but_log
    (snd (bind (train cfg w a b el vis pd) (fun _ => train cfg w b c el vis pd) s))
    (snd (train cfg w a c el vis pd s)).
Proof.
  intros Habc.
  assert (Hsplit : seq a (c - a) = seq a (b - a) ++ seq b (c - b)).
  { replace (c - a) with ((b - a) + (c - b)) by lia. rewrite seq_app.
    now replace (a + (b - a)) with b by lia. }
  unfold bind at 1 2. rewrite !train_run, Hsplit, for_each_app_run.
  set (body := fun epoch =>
                 bind (train_epoch cfg w epoch el vis pd)
                      (fun _ => modify (fun s : state w =>
                                          set_models (option_map (sched_step w) (models s)) s))).
  set (s0 := emit (Print_train a b (labeled_set s)) s).
  set (s0' := emit (Print_train a c (labeled_set s)) s).
  assert (H0 : eq_but_log s0 s0') by (unfold s0, s0'; same_fields).
  destruct (blind_epochs el vis pd (seq a (b - a)) s0 s0' H0) as [Hr1 Hs1].
  fold body in Hr1, Hs1.
  destruct (for_each body (seq a (b - a)) s0) as [[[]|e1] s1],
           (for_each body (seq a (b - a)) s0') as [[[]|e1'] s1'];
    simpl in Hr1, Hs1; try discriminate.
  - rewrite train_run. fold body.
    set (s2 := emit (Print_train b c (labeled_set (emit Print_finished s1)))
                    (emit Print_finished s1)).
    assert (H2 : eq_but_log s2 s1') by (unfold s2; fields Hs1; same_fields).
    destruct (blind_epochs el vis pd (seq b (c - b)) s2 s1' H2) as [Hr2 Hs2].
    fold body in Hr2, Hs2.
    destruct (for_each body (seq b (c - b)) s2) as [[[]|e2] s3],
             (for_each body (seq b (c - b)) s1') as [[[]|e2'] s3'];
      simpl in Hr2, Hs2; try discriminate.
    + simpl. split; [reflexivity|]. fields Hs2. same_fields.
    + simpl. split; [exact Hr2|exact Hs2].
  - simpl. split; [exact Hr1|exact Hs1].
Qed.

End ResumeFacts.

Lemma train_resumes_witness :
  fst (bind (train Demo.config0 Demo.world0 0 1 1 None false)
            (fun _ => train Demo.config0 Demo.world0 1 2 1 None false) Demo.ready)
  = fst (train Demo.config0 Demo.world0 0 2 1 None false Demo.ready).
Proof.
  refine (proj1 (train_resumes Demo.config0 Demo.world0 0 1 2 1 None false Demo.ready _)).
  lia.
Defined.

(** ** The iteration counter and the plot lists *)

Section GrowthFacts.

Variable cfg : config.
Variable w : world.

Local Open Scope nat_scope.

Lemma grows_refl (s : state w) : grows s s.
Proof.
  split; [lia|]. split; [exists []; now rewrite app_nil_r|].
  exists [], []. rewrite !app_nil_r. repeat split; constructor.
Qed.

Lemma grows_trans (a b c : state w) : grows a b -> grows b c -> grows a c.
Proof.
  intros (Hi & (e1 & Hg) & xs & ys & Hx & Hy & Hl & Hr & Hs & Hf)
         (Hi' & (e2 & Hg') & xs' & ys' & Hx' & Hy' & Hl' & Hr' & Hs' & Hf').
  split; [lia|]. split; [exists (e1 ++ e2); now rewrite Hg', Hg, app_assoc|].
  exists (xs ++ xs'), (ys ++ ys').
  split; [now rewrite Hx', Hx, app_assoc|].
  split; [now rewrite Hy', Hy, app_assoc|].
  split; [rewrite !length_app; lia|].
  split; [apply Forall_app; now split|]. split.
  - clear - Hs Hs' Hf Hf'. induction xs as [|x xs IH]; simpl; [exact Hs'|].
    apply StronglySorted_inv in Hs as [Hs Hx]. apply Forall_cons_iff in Hf as [Hfx Hf].
    constructor; [now apply IH|]. apply Forall_app. split; [exact Hx|].
    eapply Forall_impl; [|exact Hf']. intros y Hy. cbv beta in Hy. lia.
  - apply Forall_app. split.
    + eapply Forall_impl; [|exact Hf]. intros x Hx0. cbv beta in Hx0. lia.
    + eapply Forall_impl; [|exact Hf']. intros x Hx0. cbv beta in Hx0. lia.
Qed.

(** a change that leaves the counter and the plot lists alone and at most
    appends to the log *)
Lemma grows_touch (s s' : state w) :
  iters s' = iters s -> plot_X s' = plot_X s -> plot_Y s' = plot_Y s ->
  (exists evs, log s' = log s ++ evs) -> grows s s'.
Proof.
  intros Hi Hx Hy Hg. split; [lia|]. split; [exact Hg|].
  exists [], []. rewrite !app_nil_r. repeat split; auto; constructor.
Qed.

Ltac gbind := apply keeps_bind; [exact grows_trans| |].

Ltac gleaf :=
  first [apply keeps_ret | apply keeps_raise | apply keeps_lift | apply keeps_get];
  exact grows_refl.

Ltac gtouch :=
  apply keeps_modify; intros ?; apply grows_touch;
  [reflexivity | reflexivity | reflexivity
   | first [eexists; reflexivity | exists []; now rewrite app_nil_r]].

Lemma train_batch_grows (epoch el : nat) (vis : option visdom) (pd : bool)
      (batch : list nat) :
  keeps grows (train_batch cfg w epoch el vis pd batch).
Proof.
  intros s. unfold train_batch, bind, modify, get, lift. cbn [models set_iters].
  destruct (models s) as [net|].
  2:{ simpl. split; [simpl; lia|]. split; [exists []; now rewrite app_nil_r|].
      exists [], []. simpl. rewrite !app_nil_r. repeat split; constructor. }
  destruct (forward_losses cfg w net batch) as [L|e].
  2:{ simpl. split; [simpl; lia|]. split; [exists []; now rewrite app_nil_r|].
      exists [], []. simpl. rewrite !app_nil_r. repeat split; constructor. }
  unfold visualize, bind, get, modify, lift.
  cbn [iters emit set_models set_iters plot_X plot_Y].
  destruct ((S (iters s) mod 10 =? 0) && not_None vis && pd) eqn:E.
  - apply andb_prop in E as [E _]. apply andb_prop in E as [E _].
    apply Nat.eqb_eq in E.
    assert (G : forall s' : state w,
               iters s' = S (iters s) ->
               (exists evs, log s' = log s ++ evs) ->
               plot_X s' = plot_X s ++ [S (iters s)] ->
               (exists row, length row = 4 /\ plot_Y s' = plot_Y s ++ [row]) ->
               grows s s').
    { intros s' Hi Hg Hx (row & Hrow & Hy). split; [lia|]. split; [exact Hg|].
      exists [S (iters s)], [row]. repeat split; auto.
      - repeat constructor.
      - constructor; [|constructor]. lia. }
    destruct vis as [line|]; [destruct (line _ _)| ];
      (apply G;
       [ reflexivity
       | eexists; simpl; rewrite <- ?app_assoc; reflexivity
       | reflexivity
       | eexists; split; [|reflexivity]; reflexivity ]).
  - simpl. split; [simpl; lia|]. split; [eexists; reflexivity|].
    exists [], []. simpl. rewrite !app_nil_r. repeat split; constructor.
Qed.

Lemma train_grows (a b el : nat) (vis : option visdom) (pd : bool) :
  keeps grows (train cfg w a b el vis pd).
Proof.
  unfold train. gbind; [gtouch|intros _]. gbind; [|intros _; gtouch].
  apply keeps_for_each; [exact grows_refl|exact grows_trans|intros epoch].
  gbind; [|intros _; gtouch].
  unfold train_epoch. gbind; [gleaf|intros s0].
  destruct (models s0); [|gleaf].
  destruct (shuffle w (rng s0) (labeled_set s0)) as [perm r].
  gbind; [gtouch|intros _].
  apply keeps_for_each; [exact grows_refl|exact grows_trans|intros batch].
  apply train_batch_grows.
Qed.

Lemma DataLoader_grows : keeps grows (DataLoader cfg w).
Proof. unfold DataLoader. destruct (BATCH cfg =? 0); gleaf. Qed.

Lemma cycle_grows_plot (trial cyc : nat) : keeps grows (cycle cfg w trial cyc).
Proof.
  unfold cycle. gbind.
  { apply keeps_modify. intros s. unfold with_fresh_models.
    destruct (fresh w (rng s)). apply grows_touch; try reflexivity.
    exists []. now rewrite app_nil_r. }
  intros _. gbind.
  { unfold train_and_sample.
    assert (HS : keeps grows (Sampler cfg w)).
    { unfold Sampler. gbind; [gleaf|intros s0].
      destruct (length (unlabeled_set s0) <? SUBSET cfg); [gleaf|].
      destruct (shuffle w (rng s0) (unlabeled_set s0)) as [pool r].
      gbind; [gtouch|intros _]. destruct (models s0); gleaf. }
    destruct (middle_pick cfg).
    - gbind; [gleaf|intros m]. gbind; [apply train_grows|intros _].
      gbind; [exact HS|intros r]. gbind; [gleaf|intros m'].
      gbind; [apply train_grows|intros _; gleaf].
    - gbind; [apply train_grows|intros _; exact HS]. }
  intros r. gbind.
  { intros s. rewrite test_reads. apply grows_refl. }
  intros acc. gbind; [gtouch|intros _]. gbind.
  { unfold plot_picked. destruct (picked_plot cfg); [|gleaf].
    gbind; [gleaf|intros su]. gbind; [gleaf|intros rl].
    gbind; [gleaf|intros _]. gbind; [gleaf|intros _; gleaf]. }
  intros _. unfold acquire. gbind; [gleaf|intros sel].
  gbind; [gtouch|intros _]. gbind; [apply DataLoader_grows|intros _].
  gbind; [gtouch|intros _]. gbind; [apply DataLoader_grows|intros _]. gtouch.
Qed.

Lemma main_grows : keeps grows (main cfg w).
Proof.
  unfold main. apply keeps_for_each; [exact grows_refl|exact grows_trans|intros trial].
  unfold run_trial. gbind.
  { unfold initial_split. gbind; [gtouch|intros _]. gbind; [gleaf|intros s0].
    destruct (shuffle w (rng s0) (seq 0 (NUM_TRAIN cfg))) as [indices r].
    gbind; [gtouch|intros _]. gbind; [apply DataLoader_grows|intros _].
    apply DataLoader_grows. }
  intros _. gbind.
  { unfold cycles. apply keeps_for_each; [exact grows_refl|exact grows_trans|].
    intros cyc. apply cycle_grows_plot. }
  intros _. unfold save_checkpoint. gbind; [gleaf|intros s0].
  destruct (models s0); [gtouch|gleaf].
Qed.

(** X9.  The iteration counter and the plot lists are never reset: from
    the start of a run to its end, failing or not, across cycles and
    trials, the counter does not go down, the log and both plot lists are
    only appended to, by as many abscissas as rows of four values, and the
    appended abscissas are increasing multiples of ten between the old
    and the new counter.  A run from the empty heap therefore ends with
    plot lists of equal length whose abscissas are increasing multiples
    of ten up to the counter. *)
Theorem counter_and_plot_only_grow (s : state w) :
  iters s <= iters (snd (main cfg w s)) /\
  (exists evs, log (snd (main cfg w s)) = log s ++ evs) /\
  (exists xs ys,
      plot_X (snd (main cfg w s)) = plot_X s ++ xs /\
      plot_Y (snd (main cfg w s)) = plot_Y s ++ ys /\
      length xs = length ys /\
      Forall (fun row => length row = 4) ys /\
      StronglySorted lt xs /\
      Forall (fun x => x mod 10 = 0 /\ iters s < x <= iters (snd (main cfg w s))) xs) /\
  length (plot_X (snd (main cfg w (boot w))))
  = length (plot_Y (snd (main cfg w (boot w)))) /\
  StronglySorted lt (plot_X (snd (main cfg w (boot w)))) /\
  Forall (fun x => x mod 10 = 0 /\ x <= iters (snd (main cfg w (boot w))))
         (plot_X (snd (main cfg w (boot w)))).
Proof.
  split; [apply (main_grows s)|]. split; [apply (main_grows s)|].
  split; [apply (main_grows s)|].
  destruct (main_grows (boot w)) as (_ & _ & xs & ys & Hx & Hy & Hl & _ & Hs & Hf).
  simpl in Hx, Hy. rewrite Hx, Hy. split; [exact Hl|]. split; [exact Hs|].
  eapply Forall_impl; [|exact Hf]. intros x Hx0. cbv beta in Hx0. lia.
Qed.

End GrowthFacts.

(** ** The auxiliary options of a training step *)

Section OptionFacts.

Variable cfg : config.
Variable w : world.

Local Open Scope string_scope.
Local Open Scope list_scope.





(** X11.  With both auxiliary options 'None' a training step that has
    no sink to call accepts every batch, odd ones too: the two auxiliary
    terms are the number 0 and, unless the log-ratio loss is switched on,
    the total loss is the mean of the per-example losses. *)
Theorem plain_training_accepts_every_batch
        (epoch el : nat) (pd : bool) (batch : list nat) (s : state w) (net : Net w) :
  aux1 cfg = "None" ->
  aux2 cfg = "None" ->
  models s = Some net ->
  fst (train_batch cfg w epoch el None pd batch s) = Ok tt /\
  exists L,
    forward_losses cfg w net batch = Ok L /\
    m_module_loss L = PyNum (Fin 0) /\
    m_module_tloss L = PyNum (Fin 0) /\
    m_backbone_loss L
    = div_size (Tensor.sum (map (target_loss_of w net batch) batch)) (length batch) /\
    (aux3 cfg <> "LogRatioLoss" -> number_eq (loss L) (m_backbone_loss L)).
Proof.
  intros H1 H2 Hm.
  assert (HL : exists L,
             forward_losses cfg w net batch = Ok L /\
             m_module_loss L = PyNum (Fin 0) /\
             m_module_tloss L = PyNum (Fin 0) /\
             m_backbone_loss L
             = div_size (Tensor.sum (map (target_loss_of w net batch) batch)) (length batch) /\
             (aux3 cfg <> "LogRatioLoss" -> number_eq (loss L) (m_backbone_loss L))).
  { unfold forward_losses, module_loss, module_tloss, module_lloss.
    rewrite H1, H2. cbn [String.eqb Ascii.eqb Bool.eqb rbind].
    eexists. split; [reflexivity|]. cbn [m_module_loss m_module_tloss m_backbone_loss loss].
    rewrite length_map. repeat split.
    intros H3. apply String.eqb_neq in H3. rewrite H3.
    cbn [to_number nscale].
    destruct (div_size _ _) as [q|]; simpl; [ring|exact I]. }
  split; [|exact HL]. destruct HL as (L & HL & _).
  unfold train_batch, bind, modify, get, lift. cbn [models set_iters].
  rewrite Hm, HL. unfold visualize, bind, get.
  cbn [not_None andb]. rewrite Bool.andb_false_r. reflexivity.
Qed.

End OptionFacts.

Lemma plain_training_accepts_every_batch_witness :
  fst (train_batch Demo.plain Demo.world0 0 1 None false [1; 2; 3]%nat
                   (with_fresh_models Demo.world0 (boot Demo.world0))) = Ok tt.
Proof.
  refine (proj1 (plain_training_accepts_every_batch Demo.plain Demo.world0
                   0 1 false [1; 2; 3]%nat
                   (with_fresh_models Demo.world0 (boot Demo.world0)) 0%nat _ _ _));
    reflexivity.
Defined.



(** ** The test accuracy *)

Section TestFacts.

Variable w : world.

Local Open Scope string_scope.
Local Open Scope list_scope.

Lemma hits_le_total (f : nat -> bool) (bs : list (list nat)) :
  (list_sum (map (fun b => length (filter f b)) bs)
   <= list_sum (map (@length nat) bs))%nat.
Proof.
  induction bs as [|b bs IH]; simpl; [lia|].
  pose proof (filter_length_le f b). lia.
Qed.

(** X12.  [test] only reads the heap, and what it returns is a
    percentage: it succeeds for the mode 'test' alone, and the accuracy
    lies between 0 and 100. *)
Theorem test_accuracy_is_a_percentage (mode : string) (s s' : state w) (acc : Q) :
  test w mode s = (Ok acc, s') ->
  s' = s /\ mode = "test" /\ (0 <= acc <= 100)%Q.
Proof.
  intros H. split.
  { pose proof (test_reads w mode s) as Hr. now rewrite H in Hr. }
  unfold test in H. destruct (mode =? "val") eqn:Ev.
  - simpl in H. unfold bind, get in H. destruct (models s); discriminate.
  - destruct (mode =? "test") eqn:Et; [|discriminate]. simpl in H.
    split; [now apply String.eqb_eq|].
    unfold bind, get in H. destruct (models s) as [net|]; [|discriminate].
    set (total := list_sum (map (@length nat) (test_batches w))) in *.
    set (correct := list_sum (map (fun b => length (filter (hit w net) b))
                                  (test_batches w))) in *.
    assert (Hle : (correct <= total)%nat) by apply hits_le_total.
    destruct (Nat.eqb_spec total 0) as [|Hpos]; [discriminate|].
    unfold ret in H. injection H as <- _.
    assert (Ht : (0 < inject_Z (Z.of_nat total))%Q).
    { rewrite <- (Zlt_Qlt 0). lia. }
    split.
    + apply Qle_shift_div_l; [exact Ht|]. rewrite Qmult_0_l.
      rewrite <- (Zle_Qle 0). lia.
    + apply Qle_shift_div_r; [exact Ht|].
      change 100%Q with (inject_Z 100). rewrite <- inject_Z_mult, <- Zle_Qle. lia.
Qed.

(** X13.  [test] refuses every mode but 'test' without touching the
    heap: a mode other than 'val' and 'test' fails the assertion, and the
    default mode 'val' passes it but finds no such loader among
    'train' and 'test'.  With an empty test set the division by the
    number of test examples fails. *)
Theorem test_refuses_other_modes (mode : string) (s : state w) (net : Net w) :
  models s = Some net ->
  (mode <> "val" -> mode <> "test" -> test w mode s = (Raise (AssertionError ""), s)) /\
  test w "val" s = (Raise KeyError, s) /\
  (concat (test_batches w) = [] -> test w "test" s = (Raise ZeroDivisionError, s)).
Proof.
  intros Hm. split; [|split].
  - intros Hv Ht. unfold test. apply String.eqb_neq in Hv, Ht. now rewrite Hv, Ht.
  - unfold test. simpl. unfold bind, get. now rewrite Hm.
  - intros He. unfold test. simpl. unfold bind, get. rewrite Hm.
    assert (H0 : list_sum (map (@length nat) (test_batches w)) = 0%nat).
    { rewrite <- length_concat, He. reflexivity. }
    now rewrite H0.
Qed.

End TestFacts.

Lemma test_accuracy_is_a_percentage_witness :
  (0 <= 200 # 3 <= 100)%Q.
Proof.
  refine (proj2 (proj2 (test_accuracy_is_a_percentage Demo.world0 "test" Demo.ready
                          Demo.ready (200 # 3) _))).
  vm_compute. reflexivity.
Defined.

Lemma test_refuses_other_modes_witness :
  test Demo.world0 "val" Demo.ready = (Raise KeyError, Demo.ready).
Proof.
  refine (proj1 (proj2 (test_refuses_other_modes Demo.world0 "val" Demo.ready 0%nat _))).
  reflexivity.
Defined.

(** ** The main loop: split, selection, early ends *)

Section MainFacts.

Variable cfg : config.
Variable w : world.

Hypothesis shuffle_perm :
  forall (r : Rng w) (l : list nat), Permutation l (fst (shuffle w r l)).

Local Open Scope nat_scope.

(** X14.  The initial split of a trial accepts every INITIALQUERY: it
    labels the first INITIALQUERY shuffled indices, all of them when
    there are no more than that, and leaves the others unlabeled, so that
    the two lists share out the training indices.  The seed is set from
    the trial number first, so the split, the random state and the outcome
    are the same whatever heap the trial starts from. *)
Theorem initial_split_for_any_query (trial : nat) (s s' : state w) :
  initial_split cfg w trial s = (Ok tt, s') ->
  length (labeled_set s') = Nat.min (INITIALQUERY cfg) (NUM_TRAIN cfg) /\
  length (unlabeled_set s') = NUM_TRAIN cfg - INITIALQUERY cfg /\
  Permutation (labeled_set s' ++ unlabeled_set s') (seq 0 (NUM_TRAIN cfg)) /\
  (forall t : state w,
      fst (initial_split cfg w trial t) = Ok tt /\
      labeled_set (snd (initial_split cfg w trial t)) = labeled_set s' /\
      unlabeled_set (snd (initial_split cfg w trial t)) = unlabeled_set s' /\
      rng (snd (initial_split cfg w trial t)) = rng s').
Proof.
  intros H.
  pose proof (initial_split_Ok cfg w shuffle_perm trial s s' H)
    as (indices & Hp & Hl & Hu).
  assert (Hn : length indices = NUM_TRAIN cfg)
    by now rewrite <- (Permutation_length Hp), length_seq.
  split; [now rewrite Hl, length_firstn, Hn|].
  split; [now rewrite Hu, length_skipn, Hn|].
  split; [now rewrite Hl, Hu, firstn_skipn|].
  intros t. revert H. unfold initial_split, bind, modify, get, DataLoader.
  cbn [rng set_rng].
  destruct (shuffle w (seed w trial) (seq 0 (NUM_TRAIN cfg))) as [ind r].
  destruct (BATCH cfg =? 0); [discriminate|].
  unfold ret. intros [= <-]. now repeat split.
Qed.

(** X15.  When there is one score per subpool entry the selection shares
    out the subpool for every ADDENDUM: what it picks and what it leaves
    are together a rearrangement of the subpool.  An ADDENDUM of 0 picks
    the whole subpool, as does one that is not below the subpool size;
    otherwise exactly ADDENDUM entries are picked. *)
Theorem select_shares_out_the_subpool (k : nat) (u : list Q) (subset : list nat) :
  length u = length subset ->
  exists picked rest,
    select k u subset = Ok (picked, rest) /\
    Permutation (picked ++ rest) subset /\
    length picked = match k with
                    | O => length subset
                    | S _ => Nat.min k (length subset)
                    end /\
    (k = 0 \/ length subset <= k -> rest = []).
Proof.
  intros Hlen. destruct (select_aligned k u subset Hlen) as (sorted & Hs & Hsel).
  exists (Py.last_k k sorted), (Py.drop_last_k k sorted).
  split; [exact Hsel|]. split; [now rewrite last_drop_perm|]. split.
  - destruct k; [exact (Permutation_length Hs)|].
    rewrite last_k_length by lia. now rewrite (Permutation_length Hs).
  - intros [->|Hk]; [reflexivity|]. destruct k; [reflexivity|].
    unfold Py.drop_last_k. rewrite (Permutation_length Hs).
    now replace (length subset - S k) with 0 by lia.
Qed.

Lemma index_out_of_range {A} (x : list A) (arg : list nat) (i : nat) :
  In i arg -> length x <= i -> Py.index x arg = Raise IndexError.
Proof.
  intros Hin Hi. induction arg as [|j arg IH]; [contradiction|].
  simpl. destruct (nth_error x j) as [a|] eqn:E; [|reflexivity].
  destruct Hin as [->|Hin].
  - apply nth_error_None in Hi. congruence.
  - now rewrite (IH Hin).
Qed.

(** X16.  The selection needs no more scores than subpool entries: with
    more scores it fails with IndexError; with fewer it succeeds and
    silently keeps as many entries as there are scores, all of them from
    the subpool. *)
Theorem select_with_misaligned_scores (k : nat) (u : list Q) (subset : list nat) :
  (length subset < length u -> select k u subset = Raise IndexError) /\
  (length u <= length subset ->
   exists picked rest,
     select k u subset = Ok (picked, rest) /\
     length picked + length rest = length u /\
     incl (picked ++ rest) subset).
Proof.
  split.
  - intros Hlt. unfold select.
    rewrite (index_out_of_range subset (Py.argsort u) (length subset)); [reflexivity| |lia].
    apply (Permutation_in _ (Permutation_sym (argsort_perm u))), in_seq. lia.
  - intros Hle. unfold select.
    assert (Hr : Forall (fun i => i < length subset) (Py.argsort u)).
    { rewrite (argsort_perm u). apply Forall_forall. intros i Hi.
      apply in_seq in Hi. lia. }
    rewrite (index_in_range 0 subset (Py.argsort u) Hr). cbn [rbind].
    set (sorted := map (fun i => nth i subset 0) (Py.argsort u)).
    exists (Py.last_k k sorted), (Py.drop_last_k k sorted).
    split; [reflexivity|]. split.
    + rewrite <- length_app, (Permutation_length (last_drop_perm k sorted)).
      unfold sorted. rewrite length_map, (Permutation_length (argsort_perm u)).
      apply length_seq.
    + intros a Ha. apply (Permutation_in _ (last_drop_perm k sorted)) in Ha.
      unfold sorted in Ha. apply in_map_iff in Ha as (i & <- & Hi).
      apply nth_In. rewrite Forall_forall in Hr. now apply Hr.
Qed.

(** X18.  Mid-pick mode without a milestone cannot train: the cycle
    builds its networks and then fails on [MILESTONES[0]] with IndexError,
    before the first epoch, the scoring and any message. *)
Theorem mid_pick_needs_a_milestone (trial cyc : nat) (s : state w) :
  middle_pick cfg = true ->
  MILESTONES cfg = [] ->
  cycle cfg w trial cyc s = (Raise IndexError, with_fresh_models w s).
Proof.
  intros Hm Hl. unfold cycle, bind, modify, train_and_sample.
  rewrite Hm. unfold bind, lift, first_milestone. now rewrite Hl.
Qed.

End MainFacts.

Lemma initial_split_for_any_query_witness :
  length (labeled_set (Demo.after_split Demo.greedy)) = Nat.min 8 5 /\
  length (unlabeled_set (Demo.after_split Demo.greedy)) = (5 - 8)%nat.
Proof.
  destruct (initial_split_for_any_query Demo.greedy Demo.world0
              (demo_shuffle_perm Demo.sink_ok) 0 (boot Demo.world0)
              (Demo.after_split Demo.greedy))
    as (H1 & H2 & _).
  - vm_compute. reflexivity.
  - split; [exact H1|exact H2].
Defined.

Lemma select_shares_out_the_subpool_witness :
  exists picked rest,
    select 0 [1 # 10; 9 # 10; 5 # 10]%Q [5; 7; 9]%nat = Ok (picked, rest) /\
    Permutation (picked ++ rest) [5; 7; 9]%nat /\
    length picked = 3%nat /\
    (0 = 0 \/ (3 <= 0)%nat -> rest = [])%nat.
Proof.
  apply (select_shares_out_the_subpool 0 [1 # 10; 9 # 10; 5 # 10]%Q [5; 7; 9]%nat).
  reflexivity.
Defined.

Lemma select_with_misaligned_scores_witness :
  select 1 [1 # 10; 9 # 10; 5 # 10]%Q [5; 7]%nat = Raise IndexError.
Proof.
  refine (proj1 (select_with_misaligned_scores 1 [1 # 10; 9 # 10; 5 # 10]%Q [5; 7]%nat) _).
  simpl. lia.
Defined.

Lemma mid_pick_needs_a_milestone_witness :
  cycle Demo.no_milestone Demo.world0 0 0 (Demo.after_split Demo.no_milestone)
  = (Raise IndexError,
     with_fresh_models Demo.world0 (Demo.after_split Demo.no_milestone)).
Proof.
  apply (mid_pick_needs_a_milestone Demo.no_milestone Demo.world0 0 0
           (Demo.after_split Demo.no_milestone)); reflexivity.
Defined.

(** ** Checkpoints *)

Section CheckpointFacts.

Variable cfg : config.
Variable w : world.

Local Open Scope nat_scope.

Lemma saved_trials_app (a b : list event) :
  saved_trials (a ++ b) = saved_trials a ++ saved_trials b.
Proof. apply flat_map_app. Qed.

Lemma no_checkpoint_refl (s : state w) : no_checkpoint s s.
Proof. exists []. now rewrite app_nil_r. Qed.

Lemma no_checkpoint_trans (a b c : state w) :
  no_checkpoint a b -> no_checkpoint b c -> no_checkpoint a c.
Proof.
  intros (e1 & H1 & S1) (e2 & H2 & S2). exists (e1 ++ e2).
  split; [now rewrite H2, H1, app_assoc|]. now rewrite saved_trials_app, S1, S2.
Qed.

Lemma no_checkpoint_saved (s s' : state w) :
  no_checkpoint s s' -> saved_trials (log s') = saved_trials (log s).
Proof.
  intros (evs & -> & H). now rewrite saved_trials_app, H, app_nil_r.
Qed.

Lemma only_steps_no_checkpoint (s s' : state w) :
  only_steps s s' -> no_checkpoint s s'.
Proof.
  intros (_ & evs & Hl & Hf). exists evs. split; [exact Hl|].
  clear Hl. induction Hf as [|e evs He _ IH]; [reflexivity|].
  destruct e; try contradiction; exact IH.
Qed.

Ltac cbind := apply keeps_bind; [exact no_checkpoint_trans| |].

Ltac cleaf :=
  first [apply keeps_ret | apply keeps_raise | apply keeps_lift | apply keeps_get];
  exact no_checkpoint_refl.

Ltac ctouch :=
  apply keeps_modify; intros ?;
  first [exists []; split; [now rewrite app_nil_r|reflexivity]
        | eexists; split; reflexivity].

Lemma train_no_checkpoint (a b el : nat) (vis : option visdom) (pd : bool) :
  keeps no_checkpoint (train cfg w a b el vis pd).
Proof.
  unfold train. cbind; [ctouch|intros _]. cbind; [|intros _; ctouch].
  eapply keeps_weaken; [exact only_steps_no_checkpoint|apply epochs_only_steps].
Qed.

Lemma DataLoader_no_checkpoint : keeps no_checkpoint (DataLoader cfg w).
Proof. unfold DataLoader. destruct (BATCH cfg =? 0); cleaf. Qed.

Lemma initial_split_no_checkpoint (trial : nat) :
  keeps no_checkpoint (initial_split cfg w trial).
Proof.
  unfold initial_split. cbind; [ctouch|intros _]. cbind; [cleaf|intros s0].
  destruct (shuffle w (rng s0) (seq 0 (NUM_TRAIN cfg))) as [indices r].
  cbind; [ctouch|intros _].
  cbind; [apply DataLoader_no_checkpoint|intros _; apply DataLoader_no_checkpoint].
Qed.

Lemma cycle_no_checkpoint (trial cyc : nat) :
  keeps no_checkpoint (cycle cfg w trial cyc).
Proof.
  unfold cycle. cbind.
  { apply keeps_modify. intros s. unfold with_fresh_models.
    destruct (fresh w (rng s)). exists []. split; [now rewrite app_nil_r|reflexivity]. }
  intros _. cbind.
  { unfold train_and_sample.
    assert (HS : keeps no_checkpoint (Sampler cfg w)).
    { unfold Sampler. cbind; [cleaf|intros s0].
      destruct (length (unlabeled_set s0) <? SUBSET cfg); [cleaf|].
      destruct (shuffle w (rng s0) (unlabeled_set s0)) as [pool r].
      cbind; [ctouch|intros _]. destruct (models s0); cleaf. }
    destruct (middle_pick cfg).
    - cbind; [cleaf|intros m]. cbind; [apply train_no_checkpoint|intros _].
      cbind; [exact HS|intros r]. cbind; [cleaf|intros m'].
      cbind; [apply train_no_checkpoint|intros _; cleaf].
    - cbind; [apply train_no_checkpoint|intros _; exact HS]. }
  intros r. cbind.
  { intros s. rewrite test_reads. apply no_checkpoint_refl. }
  intros acc. cbind; [ctouch|intros _]. cbind.
  { unfold plot_picked. destruct (picked_plot cfg); [|cleaf].
    cbind; [cleaf|intros su]. cbind; [cleaf|intros rl].
    cbind; [cleaf|intros _]. cbind; [cleaf|intros _; cleaf]. }
  intros _. unfold acquire. cbind; [cleaf|intros sel].
  cbind; [ctouch|intros _]. cbind; [apply DataLoader_no_checkpoint|intros _].
  cbind; [ctouch|intros _]. cbind; [apply DataLoader_no_checkpoint|intros _]. ctouch.
Qed.

(** a trial writes its checkpoint when it completes, as its last action,
    and writes none when it fails *)
Lemma run_trial_checkpoint (trial : nat) (s : state w) :
  (fst (run_trial cfg w trial s) = Ok tt /\
   saved_trials (log (snd (run_trial cfg w trial s)))
   = saved_trials (log s) ++ [trial]) \/
  ((exists e, fst (run_trial cfg w trial s) = Raise e) /\
   saved_trials (log (snd (run_trial cfg w trial s))) = saved_trials (log s)).
Proof.
  unfold run_trial, bind.
  pose proof (initial_split_no_checkpoint trial s) as H1.
  destruct (initial_split cfg w trial s) as [[[]|e] s1]; cbn [snd] in H1.
  2:{ right. split; [now exists e|]. now apply no_checkpoint_saved. }
  assert (H2 : no_checkpoint s1 (snd (cycles cfg w trial (CYCLES cfg) s1))).
  { revert s1 H1. intros s1 _. revert s1.
    change (keeps no_checkpoint (cycles cfg w trial (CYCLES cfg))).
    apply keeps_for_each;
      [exact no_checkpoint_refl|exact no_checkpoint_trans|intros c].
    apply cycle_no_checkpoint. }
  pose proof (no_checkpoint_trans _ _ _ H1 H2) as H3. clear H1 H2.
  destruct (cycles cfg w trial (CYCLES cfg) s1) as [[[]|e] s2]; cbn [snd] in H3.
  2:{ right. split; [now exists e|]. now apply no_checkpoint_saved. }
  apply no_checkpoint_saved in H3.
  unfold save_checkpoint, bind, get. destruct (models s2).
  - left. split; [reflexivity|]. unfold modify. cbn [fst snd emit log].
    now rewrite saved_trials_app, H3.
  - right. split; [now exists TypeError|exact H3].
Qed.

Lemma trials_checkpoints (n a : nat) (s : state w) :
  exists k,
    k <= n /\
    saved_trials (log (snd (for_each (run_trial cfg w) (seq a n) s)))
    = saved_trials (log s) ++ seq a k /\
    (fst (for_each (run_trial cfg w) (seq a n) s) = Ok tt -> k = n) /\
    (forall e, fst (for_each (run_trial cfg w) (seq a n) s) = Raise e -> k < n).
Proof.
  revert a s. induction n as [|n IH]; intros a s.
  - exists 0. simpl. rewrite app_nil_r. repeat split; auto. discriminate.
  - cbn [seq for_each]. unfold bind.
    destruct (run_trial_checkpoint a s) as [[Hr Hs]|[[e Hr] Hs]];
      destruct (run_trial cfg w a s) as [r s1]; cbn [fst snd] in Hr, Hs; subst r.
    + destruct (IH (S a) s1) as (k & Hk & Hl & Hok & Hraise).
      exists (S k). split; [lia|]. split.
      * rewrite Hl, Hs, <- app_assoc. reflexivity.
      * split; [intros H; now rewrite (Hok H)|].
        intros e H. specialize (Hraise e H). lia.
    + exists 0. split; [lia|]. cbn [fst snd seq]. rewrite app_nil_r.
      split; [exact Hs|]. split; [discriminate|]. intros _ _. lia.
Qed.

(** X19.  The checkpoints a run writes are those of the trials it
    completed, one each and in the order of the trials: a run that
    completes writes the checkpoints of trials 0 to TRIALS-1, and a run
    that fails has written those of the trials before the failing one and
    none for it.  Nothing else writes a checkpoint. *)
Theorem checkpoints_follow_completed_trials (s : state w) :
  exists k,
    k <= TRIALS cfg /\
    saved_trials (log (snd (main cfg w s))) = saved_trials (log s) ++ seq 0 k /\
    (fst (main cfg w s) = Ok tt -> k = TRIALS cfg) /\
    (forall e, fst (main cfg w s) = Raise e -> k < TRIALS cfg).
Proof. apply trials_checkpoints. Qed.

End CheckpointFacts.

(** ** The plots of the picked examples *)

Section PlotFacts.

Variable cfg : config.
Variable w : world.

Hypothesis shuffle_perm :
  forall (r : Rng w) (l : list nat), Permutation l (fst (shuffle w r l)).

Local Open Scope nat_scope.

Lemma keeps_bind_never {A B} (R : state w -> state w -> Prop)
      (m : M w A) (k : A -> M w B) :
  keeps R m -> (forall s a s', m s <> (Ok a, s')) -> keeps R (bind m k).
Proof.
  intros Hm Hnever s. unfold bind. specialize (Hm s). specialize (Hnever s).
  destruct (m s) as [[a|e] s1]; [now destruct (Hnever a s1)|exact Hm].
Qed.

Lemma Sampler_same_sets : keeps same_sets (Sampler cfg w).
Proof.
  unfold Sampler. apply keeps_bind; [exact (same_sets_trans w)| |intros s0].
  { apply keeps_get. exact (same_sets_refl w). }
  destruct (length (unlabeled_set s0) <? SUBSET cfg).
  { apply keeps_raise. exact (same_sets_refl w). }
  destruct (shuffle w (rng s0) (unlabeled_set s0)) as [pool r].
  apply keeps_bind; [exact (same_sets_trans w)| |intros _].
  { apply keeps_modify. intros s1. now split. }
  destruct (models s0); [apply keeps_ret|apply keeps_raise]; exact (same_sets_refl w).
Qed.

Lemma Sampler_lengths (s s' : state w) (u rl : list Q) (subset : list nat) :
  Sampler cfg w s = (Ok (u, rl, subset), s') -> length rl = length u.
Proof.
  unfold Sampler, bind, get.
  destruct (length (unlabeled_set s) <? SUBSET cfg); [discriminate|].
  destruct (shuffle w (rng s) (unlabeled_set s)) as [pool r].
  unfold modify. destruct (models s) as [net|]; [|discriminate].
  unfold ret. intros [= <- <- _ _]. now rewrite !length_map.
Qed.

Lemma train_and_sample_lengths (s s' : state w) (u rl : list Q) (subset : list nat) :
  train_and_sample cfg w s = (Ok (u, rl, subset), s') -> length rl = length u.
Proof.
  unfold train_and_sample. destruct (middle_pick cfg); intros H.
  - apply bind_Ok in H as (m & s1 & _ & H).
    apply bind_Ok in H as ([] & s2 & _ & H).
    apply bind_Ok in H as ([[u' rl'] sub'] & s3 & H3 & H).
    apply Sampler_lengths in H3.
    apply bind_Ok in H as (m' & s4 & _ & H).
    apply bind_Ok in H as ([] & s5 & _ & H).
    unfold ret in H. now injection H as <- <- <- <-.
  - apply bind_Ok in H as ([] & s2 & _ & H). now apply Sampler_lengths in H.
Qed.

(** with the plots switched on the cycle leaves both index lists as
    they are, whatever its outcome *)
Lemma plotting_cycle_same_sets (trial cyc : nat) :
  picked_plot cfg = true -> keeps same_sets (cycle cfg w trial cyc).
Proof.
  intros Hp. unfold cycle.
  apply keeps_bind; [exact (same_sets_trans w)| |intros _].
  { apply keeps_modify. intros s. apply with_fresh_models_same. }
  apply keeps_bind; [exact (same_sets_trans w)| |intros r].
  { unfold train_and_sample. destruct (middle_pick cfg).
    - apply keeps_bind; [exact (same_sets_trans w)| |intros m].
      { apply keeps_lift. exact (same_sets_refl w). }
      apply keeps_bind; [exact (same_sets_trans w)|apply train_same_sets|intros _].
      apply keeps_bind; [exact (same_sets_trans w)|exact Sampler_same_sets|intros r].
      apply keeps_bind; [exact (same_sets_trans w)| |intros m'].
      { apply keeps_lift. exact (same_sets_refl w). }
      apply keeps_bind; [exact (same_sets_trans w)|apply train_same_sets|intros _].
      apply keeps_ret. exact (same_sets_refl w).
    - apply keeps_bind;
        [exact (same_sets_trans w)|apply train_same_sets|intros _; exact Sampler_same_sets]. }
  apply keeps_bind; [exact (same_sets_trans w)| |intros acc].
  { intros s. rewrite test_reads. apply same_sets_refl. }
  apply keeps_bind; [exact (same_sets_trans w)| |intros _].
  { apply keeps_modify. intros s. now split. }
  apply keeps_bind_never.
  - intros s.
    destruct (plot_picked cfg w (fst (fst r)) (snd (fst r)) s) as [[[]|e] s1] eqn:E.
    + apply plot_picked_Ok in E as [-> _]. apply same_sets_refl.
    + revert E. unfold plot_picked. rewrite Hp. unfold bind, lift, raise.
      repeat match goal with
             | |- context [match ?x with Ok _ => _ | Raise _ => _ end] => destruct x
             end; intros [= _ <-]; apply same_sets_refl.
  - intros s a s' E. apply plot_picked_Ok in E as [_ E]. congruence.
Qed.

(** X17.  With the plots of the picked examples switched on no cycle
    completes, and whatever its outcome it leaves both index lists as
    they were: the update of line 328 is not reached.  When the training,
    the scoring and the test of the cycle succeed and the plots can be
    drawn, the cycle ends with SystemExit right after the accuracy was
    printed.  With a cycle to run, no trial and no run completes, and the
    run writes no checkpoint. *)
Theorem picked_plot_ends_the_run (trial cyc : nat) (s : state w) :
  picked_plot cfg = true ->
  (forall s', cycle cfg w trial cyc s <> (Ok tt, s')) /\
  labeled_set (snd (cycle cfg w trial cyc s)) = labeled_set s /\
  unlabeled_set (snd (cycle cfg w trial cyc s)) = unlabeled_set s /\
  (forall u rl subset s1 acc,
      train_and_sample cfg w (with_fresh_models w s) = (Ok (u, rl, subset), s1) ->
      fst (test w "test" s1) = Ok acc ->
      (forall a b, dot_plot w a b = Ok tt) ->
      cycle cfg w trial cyc s
      = (Raise SystemExit,
         emit (Print_acc (trial + 1) (cyc + 1) (length (labeled_set s1)) acc) s1)) /\
  (0 < CYCLES cfg ->
   (forall s', run_trial cfg w trial s <> (Ok tt, s')) /\
   (0 < TRIALS cfg -> forall s', main cfg w s <> (Ok tt, s')) /\
   saved_trials (log (snd (main cfg w s))) = saved_trials (log s)).
Proof.
  intros Hp.
  assert (Hc : forall t c a b, cycle cfg w t c a <> (Ok tt, b)).
  { intros t c a b H. unfold cycle in H.
    apply bind_Ok in H as (? & s1 & _ & H).
    apply bind_Ok in H as (r & s2 & _ & H).
    apply bind_Ok in H as (acc & s3 & _ & H).
    apply bind_Ok in H as (? & s4 & _ & H).
    apply bind_Ok in H as (? & s5 & H5 & _).
    apply (plot_picked_Ok cfg w) in H5 as [_ H5]. congruence. }
  assert (Ht : 0 < CYCLES cfg -> forall t a b, run_trial cfg w t a <> (Ok tt, b)).
  { intros Hn t a b H. unfold run_trial in H.
    apply bind_Ok in H as (? & s1 & _ & H).
    apply bind_Ok in H as (? & s2 & H2 & _).
    unfold cycles in H2. destruct (CYCLES cfg) as [|n]; [lia|].
    simpl in H2. apply bind_Ok in H2 as ([] & s3 & H3 & _).
    exact (Hc _ _ _ _ H3). }
  split; [apply Hc|].
  destruct (plotting_cycle_same_sets trial cyc Hp s) as [Hl Hu].
  split; [exact Hl|]. split; [exact Hu|]. split.
  { intros u rl subset s1 acc Hts Htest Hdot.
    pose proof (train_and_sample_lengths _ _ _ _ _ Hts) as Hlen.
    assert (Htest' : test w "test" s1 = (Ok acc, s1)).
    { pose proof (test_reads w "test" s1) as Hr.
      destruct (test w "test" s1) as [x s1']. cbn [fst snd] in *. now subst. }
    unfold cycle.
    erewrite (bind_step _ _ s (with_fresh_models w s) tt) by reflexivity.
    rewrite (bind_step _ _ _ _ _ Hts), (bind_step _ _ _ _ _ Htest').
    erewrite (bind_step _ _ s1 _ tt) by reflexivity.
    apply bind_Raise. cbn [fst snd]. unfold plot_picked. rewrite Hp.
    assert (Hr : Forall (fun i => i < length u) (Py.argsort u)).
    { rewrite (argsort_perm u). apply Forall_forall. intros i Hi.
      apply in_seq in Hi. lia. }
    assert (Hr' : Forall (fun i => i < length rl) (Py.argsort u))
      by now rewrite Hlen.
    unfold bind, lift.
    rewrite (index_in_range 0%Q u _ Hr), (index_in_range 0%Q rl _ Hr'), !Hdot.
    reflexivity. }
  intros Hn. split; [now apply Ht|].
  assert (Hmain : forall n a, fst (for_each (run_trial cfg w) (seq a n) s) <> Ok tt \/ n = 0).
  { intros [|n] a; [now right|left]. cbn [seq for_each]. unfold bind.
    pose proof (Ht Hn a s) as Hno.
    destruct (run_trial cfg w a s) as [[[]|e] s1]; [now destruct (Hno s1)|discriminate]. }
  split.
  - intros HT s' H. destruct (Hmain (TRIALS cfg) 0) as [Hno|H0]; [|lia].
    apply Hno. unfold main in H. now rewrite H.
  - unfold main. destruct (TRIALS cfg) as [|n]; [reflexivity|].
    cbn [seq for_each]. unfold bind.
    pose proof (Ht Hn 0 s) as Hno.
    destruct (run_trial_checkpoint cfg w 0 s) as [[Hr _]|[_ Hs]].
    + destruct (run_trial cfg w 0 s) as [r s1]. cbn [fst] in Hr. subst r.
      now destruct (Hno s1).
    + destruct (run_trial cfg w 0 s) as [[[]|e] s1]; [now destruct (Hno s1)|exact Hs].
Qed.

End PlotFacts.

Lemma picked_plot_ends_the_run_witness :
  cycle Demo.plotting Demo.world0 0 0 (Demo.after_split Demo.plotting)
  = (Raise SystemExit,
     emit (Print_acc (0 + 1) (0 + 1)
             (length (labeled_set (Demo.after_split Demo.plotting))) (200 # 3))
          (snd (train_and_sample Demo.plotting Demo.world0
                  (with_fresh_models Demo.world0 (Demo.after_split Demo.plotting))))).
Proof.
  refine (proj1 (proj2 (proj2 (proj2
            (picked_plot_ends_the_run Demo.plotting Demo.world0 0 0
               (Demo.after_split Demo.plotting) eq_refl))))
            _ _ _ _ (200 # 3) _ _ _).
  - vm_compute. reflexivity.
  - vm_compute. reflexivity.
  - intros a b. reflexivity.
Defined.

(** ** A failing sink *)

Section SinkClaim.

Variable cfg : config.
Variable w : world.

Hypothesis shuffle_perm :
  forall (r : Rng w) (l : list nat), Permutation l (fst (shuffle w r l)).

Local Open Scope nat_scope.




Section Down.

Variable line : visdom.
Variable e : exn.

Hypothesis sink_is_down : forall X Y, line X Y = Raise e.

Hypothesis forward_runs :
  forall net batch, exists L, forward_losses cfg w net batch = Ok L.







End Down.



End SinkClaim.

